(** * Subscription_Recovery: the recurrence-hike engine

    A shallow embedding of [find_subscription_leeches] and of the tool
    [analyze_transactions] from src/Subscription_Recovery/Subscription_Recovery.py,
    and of the Streamlit page around them.

    The pandas calls are modelled as pandas 2.x carries them out, at the
    level of the data they handle:
    - [pd.read_csv] (C parser, default options) gives a frame: the column
      names (an empty header field becomes ["Unnamed: i"], a repeated name
      gets a suffix [".1"], [".2"], ...), and one row per data line, which
      remembers its position in the file; short lines are padded with
      missing values; when the first data line has more fields than the
      header, its leading fields are the index and are dropped from every
      line; a later line with more fields raises; a column is numeric when
      every non-missing field of it is a number, text otherwise (object
      dtype), and a numeric column with a missing field is float64;
    - [pd.to_datetime] infers one format from the first date text and parses
      every date with it, or parses each date alone when no format is
      inferred; ["now"] and ["today"] read the clock; a long column with
      many repeated values is converted through its unique values;
    - [sort_values(by=['merchant','date'])] is a stable sort (pandas sorts on
      several columns with a stable lexicographic indexer), missing values
      last for each key;
    - [duplicated('merchant', keep=False)] keeps the rows whose merchant value
      occurs at least twice;
    - [groupby('merchant')['amount'].diff()] subtracts from each row the
      amount of the previous row of its group, shifted into float64: the
      difference is computed and rounded in float64 (NaN for the first row of
      a group and for rows with a missing merchant);
    - [to_json(orient='records')] writes one JSON object per row, keyed by the
      column names, with its strings escaped as ujson escapes them.

    Numbers in the files are integers ([Z]) of the int64 range, e.g. cents;
    fields with a decimal point, booleans and the other types that pandas
    infers are outside the model, as are blank lines, quoted fields, files
    large enough for the chunked type inference, URLs and paths that are not
    files. Text is taken after decoding, as code points below 256 (one
    [ascii] each). The integer reader of pandas, its date parsers, the files
    and home directories, and the number formatting of the JSON writer are
    parameters of the development. *)

From Stdlib Require Import String Ascii List ZArith Lia Bool Sorting.Sorted
  Sorting.Permutation.
Import ListNotations.
Open Scope string_scope.

(** ** Python values and exceptions *)

(** A cell of a DataFrame column: an int64 number, a float64 number (the
    values that occur are integers), a text, a timestamp (ns since the
    epoch), and the missing value [VNA] (NaN / NaT). *)
Inductive value :=
| VNum (z : Z)
| VFloat (z : Z)
| VStr (s : string)
| VTime (t : Z)
| VNA.

(** The number held by a cell of a numeric column. *)
Definition num_value (v : value) : option Z :=
  match v with
  | VNum z | VFloat z => Some z
  | _ => None
  end.

(** A float64 value, the dtype of the [price_change] column. *)
Inductive float64 :=
| FVal (z : Z)
| FNaN.

(** IEEE comparison [x > 0]: false on NaN. *)
Definition float_gt0 (x : float64) : bool :=
  match x with
  | FVal z => (0 <? z)%Z
  | FNaN => false
  end.

Definition float_to_value (x : float64) : value :=
  match x with
  | FVal z => VFloat z
  | FNaN => VNA
  end.

(** The float64 nearest to the integer [z] (53-bit significand, ties to
    even): the conversion of an int64 to float64. *)
Definition round_f64 (z : Z) : Z :=
  let a := Z.abs z in
  if (a <? 2 ^ 53)%Z then z
  else
    let e := (Z.log2 a - 52)%Z in
    let q := (a / 2 ^ e)%Z in
    let r := (a mod 2 ^ e)%Z in
    let half := (2 ^ (e - 1))%Z in
    let q' := if (r <? half)%Z then q
              else if (half <? r)%Z then (q + 1)%Z
              else if Z.even q then q else (q + 1)%Z in
    (Z.sgn z * (q' * 2 ^ e))%Z.

(** [a - b] where [b] comes from the shifted (float64) column: both sides are
    float64 and the difference is rounded. *)
Definition f64_sub (a b : Z) : Z := round_f64 (round_f64 a - round_f64 b).

(** Decimal digits of a natural number, as Python's [str] writes them. *)
Fixpoint nat_digits (fuel n : nat) (acc : string) : string :=
  match fuel with
  | O => acc
  | S f =>
      let acc' := String (ascii_of_nat (48 + n mod 10)) acc in
      if Nat.ltb n 10 then acc' else nat_digits f (n / 10) acc'
  end.

Definition nat_str (n : nat) : string := nat_digits (S n) n "".

Definition nl : string := String (ascii_of_nat 10) EmptyString.
Definition dq : string := String (ascii_of_nat 34) EmptyString.
Definition backslash : string := String (ascii_of_nat 92) EmptyString.

(** A lowercase hexadecimal digit. *)
Definition hex_digit (n : nat) : ascii :=
  ascii_of_nat (if Nat.ltb n 10 then 48 + n else 87 + n).

Definition hex2 (n : nat) : string :=
  String (hex_digit (n / 16)) (String (hex_digit (n mod 16)) EmptyString).

Definition has_char (c : ascii) (s : string) : bool :=
  existsb (Ascii.eqb c) (list_ascii_of_string s).

(** Python's [repr] of a string: single quotes unless the text has a single
    quote and no double quote; backslash, the quote, tab, newline and
    carriage return escaped; the other characters that are not printable
    as [\xhh]. *)
Definition repr_char (q : ascii) (c : ascii) : string :=
  let n := nat_of_ascii c in
  if Nat.eqb n 92 then backslash ++ backslash
  else if Ascii.eqb c q then backslash ++ String q EmptyString
  else if Nat.eqb n 9 then backslash ++ "t"
  else if Nat.eqb n 10 then backslash ++ "n"
  else if Nat.eqb n 13 then backslash ++ "r"
  else if Nat.ltb n 32 || Nat.eqb n 127 || (Nat.leb 128 n && Nat.leb n 160) || Nat.eqb n 173
  then backslash ++ "x" ++ hex2 n
  else String c EmptyString.

Definition py_repr (s : string) : string :=
  let q := if has_char "'" s && negb (has_char (ascii_of_nat 34) s)
           then ascii_of_nat 34 else "'"%char in
  String q (String.concat "" (map (repr_char q) (list_ascii_of_string s)) ++ String q EmptyString).

(** The exceptions that the pipeline can raise. *)
Inductive exn :=
| FileNotFoundError (path : string)
| EmptyDataError (msg : string)
| ParserError (msg : string)
| KeyError (key : string)
| ValueError (msg : string)
| TypeError (msg : string).

(** [str(e)]: [open] names the path by its [repr]; a [KeyError] shows the
    [repr] of its key. *)
Definition str_exn (e : exn) : string :=
  match e with
  | FileNotFoundError p => "[Errno 2] No such file or directory: " ++ py_repr p
  | EmptyDataError m => m
  | ParserError m => m
  | KeyError k => py_repr k
  | ValueError m => m
  | TypeError m => m
  end.

(** A small error monad: the Python code either returns or raises. *)
Inductive result (A : Type) :=
| Ok (a : A)
| Err (e : exn).
Arguments Ok {A} a.
Arguments Err {A} e.

Definition bind {A B} (m : result A) (k : A -> result B) : result B :=
  match m with
  | Ok a => k a
  | Err e => Err e
  end.

Notation "x <- m ;; k" := (bind m (fun x => k))
  (at level 61, m at next level, right associativity).

(** Raise on the first element for which [f] raises. *)
Fixpoint mapM {A B} (f : A -> result B) (l : list A) : result (list B) :=
  match l with
  | [] => Ok []
  | x :: xs => y <- f x ;; ys <- mapM f xs ;; Ok (y :: ys)
  end.

(** ** Frames *)

(** A CSV file: its header line and its data lines, split into fields.
    A file with no line at all has the empty header. *)
Record csv := mk_csv { csv_header : list string; csv_lines : list (list string) }.

(** A DataFrame row: its position among the data lines of the file
    ([idx], which is also its DataFrame index unless pandas takes the index
    from the leading fields) and its cells, one per column. *)
Record row := mk_row { idx : nat; cells : list value }.

Record frame := mk_frame { header : list string; rows : list row }.

Fixpoint col_index (h : list string) (name : string) : option nat :=
  match h with
  | [] => None
  | c :: cs =>
      if String.eqb c name then Some 0
      else option_map S (col_index cs name)
  end.

(** [df[name]] at one row. *)
Definition get (h : list string) (name : string) (r : row) : value :=
  match col_index h name with
  | Some i => nth i (cells r) VNA
  | None => VNA
  end.

Fixpoint set_nth {A} (i : nat) (v : A) (l : list A) : list A :=
  match l, i with
  | [], _ => []
  | _ :: xs, 0 => v :: xs
  | x :: xs, S j => x :: set_nth j v xs
  end.

Fixpoint pad {A} (n : nat) (d : A) (l : list A) : list A :=
  match n, l with
  | 0, _ => []
  | S m, [] => d :: pad m d []
  | S m, x :: xs => x :: pad m d xs
  end.

(** ** Column names (the C parser's header handling) *)

(** An empty name becomes ["Unnamed: i"], [i] its position. *)
Definition name_unnamed (h : list string) : list string :=
  map (fun '(i, n) => if String.eqb n "" then "Unnamed: " ++ nat_str i else n)
    (combine (seq 0 (length h)) h).

(** [counts.get(col, 0)]; a later binding hides an earlier one. *)
Fixpoint lookup (counts : list (string * nat)) (k : string) : nat :=
  match counts with
  | [] => 0
  | (k', v) :: cs => if String.eqb k' k then v else lookup cs k
  end.

(** The [while cur_count > 0] loop that looks for a free name
    [old_col.cur_count]. It runs at most once per name of the header and
    once more, so [S (length this)] rounds suffice. *)
Fixpoint bump (fuel : nat) (this : list string) (counts : list (string * nat))
    (old col : string) (cur : nat) : string * nat * list (string * nat) :=
  match fuel with
  | O => (col, cur, counts)
  | S f =>
      if Nat.eqb cur 0 then (col, cur, counts)
      else
        let counts' := (old, S cur) :: counts in
        let col' := old ++ "." ++ nat_str cur in
        let cur' := if existsb (String.eqb col') this then S cur else lookup counts' col' in
        bump f this counts' old col' cur'
  end.

(** One round of the renaming loop, for column [i]. *)
Definition dedup_step (st : list string * list (string * nat)) (i : nat)
    : list string * list (string * nat) :=
  let '(this, counts) := st in
  let col := nth i this "" in
  let cur := lookup counts col in
  let '(col', cur', counts') :=
    if Nat.eqb cur 0 then (col, 0, counts)
    else bump (S (length this)) this counts col col cur in
  (set_nth i col' this, (col', S cur') :: counts').

(** The columns with a name first, then the unnamed ones. *)
Definition column_names (h : list string) : list string :=
  let blank i := String.eqb (nth i h "") "" in
  let order := (filter (fun i => negb (blank i)) (seq 0 (length h))
                ++ filter blank (seq 0 (length h)))%list in
  fst (fold_left dedup_step order (name_unnamed h, [])).

(** ** The environment *)

(** The files on disk, by path, and the home directories that
    [os.path.expanduser] reads ([HOME], and the home directory of a user
    name in the password database). *)
Record file_system := mk_fs {
  fs_files : string -> option csv;
  fs_home : string;
  fs_user_home : string -> option string
}.

(** The text up to the first ["/"], and the rest from that ["/"] on. *)
Fixpoint split_slash (s : string) : string * string :=
  match s with
  | EmptyString => ("", "")
  | String c s' =>
      if Ascii.eqb c "/" then ("", s)
      else let '(a, b) := split_slash s' in (String c a, b)
  end.

Fixpoint drop_slashes (l : list ascii) : list ascii :=
  match l with
  | c :: l' => if Ascii.eqb c "/" then drop_slashes l' else l
  | [] => []
  end.

(** [s.rstrip('/')] *)
Definition rstrip_slash (s : string) : string :=
  string_of_list_ascii (rev (drop_slashes (rev (list_ascii_of_string s)))).

(** [os.path.expanduser] (POSIX), which pandas applies to the path. *)
Definition expand_user (fs : file_system) (p : string) : string :=
  match p with
  | String c rest =>
      if Ascii.eqb c "~" then
        let '(name, tail) := split_slash rest in
        let home := if String.eqb name "" then Some (fs_home fs)
                    else fs_user_home fs name in
        match home with
        | None => p
        | Some hd =>
            let r := rstrip_slash hd ++ tail in
            if String.eqb r "" then "/" else r
        end
      else p
  | EmptyString => p
  end.

(** The CSV file that [open] finds for the path. *)
Definition find_file (fs : file_system) (p : string) : option csv :=
  fs_files fs (expand_user fs p).

(** The outcome of one of pandas' date parsers on one text. *)
Inductive parse_outcome :=
| Parsed (t : Z)
| Failed (msg : string).

(** pandas' date machinery:
    - [guess_format]: [guess_datetime_format] on the first date text;
    - [format_is_iso]: whether a format is an ISO 8601 one, which pandas
      parses with its ISO parser, where ["now"] and ["today"] are read;
    - [strptime]: [array_strptime] of one text with a format, and the message
      of its [ValueError];
    - [dateutil]: the parser of one text when no format is known, and its
      message;
    - [use_cache]: [should_cache] on the column;
    - [clock]: the time read for ["now"]/["today"] at a position of the
      converted column. *)
Record date_parser := mk_date_parser {
  guess_format : string -> option string;
  format_is_iso : string -> bool;
  strptime : string -> string -> parse_outcome;
  dateutil : string -> parse_outcome;
  use_cache : list value -> bool;
  clock : nat -> Z
}.


(** How the JSON writer prints an int64 and a float64. *)
Record num_format := mk_num_format {
  show_int :> Z -> string;
  show_float : Z -> string
}.

(** ** Order and equality of values *)

(** Order of values inside one column; a missing value sorts last.  The cells
    of one column all have one kind, so the rank case only orders [VNA]. *)
Definition rank (v : value) : nat :=
  match v with VNum _ => 0 | VFloat _ => 1 | VStr _ => 2 | VTime _ => 3 | VNA => 4 end.

Definition cmp_val (a b : value) : comparison :=
  match a, b with
  | VNum x, VNum y => Z.compare x y
  | VFloat x, VFloat y => Z.compare x y
  | VStr x, VStr y => String.compare x y
  | VTime x, VTime y => Z.compare x y
  | _, _ => Nat.compare (rank a) (rank b)
  end.

Definition value_eqb (a b : value) : bool :=
  match cmp_val a b with Eq => true | _ => false end.

(** ** The parameters: the file system, pandas' parsers, the JSON number writer *)

Section Engine.

Variable fs : file_system.
(** The int64 that [read_csv] reads from a field, if the field is one. *)
Variable parse_num : string -> option Z.
Variable parse_date : date_parser.

(** ** pd.read_csv *)

(** Fields that [read_csv] reads as missing (its default [na_values]). *)
Definition na_tokens : list string :=
  [""; "#N/A"; "#N/A N/A"; "#NA"; "-1.#IND"; "-1.#QNAN"; "-NaN"; "-nan";
   "1.#IND"; "1.#QNAN"; "<NA>"; "N/A"; "NA"; "NULL"; "NaN"; "None"; "n/a";
   "nan"; "null"].

Definition is_na (s : string) : bool :=
  existsb (String.eqb s) na_tokens.

(** A column is numeric when all its non-missing fields are numbers; it is
    float64 when it also has a missing field. *)
Definition column_kind (fields : list string) : bool * bool :=
  (forallb (fun s => is_na s || match parse_num s with Some _ => true | None => false end)
     fields,
   existsb is_na fields).

Definition read_field (kind : bool * bool) (s : string) : value :=
  if is_na s then VNA
  else
    match kind with
    | (true, has_na) =>
        match parse_num s with
        | Some z => if has_na then VFloat (round_f64 z) else VNum z
        | None => VStr s
        end
    | (false, _) => VStr s
    end.

(** The first line, with its position, that has more than [n] fields. *)
Fixpoint find_long (n j : nat) (ls : list (list string)) : option (nat * nat) :=
  match ls with
  | [] => None
  | l :: ls' => if Nat.ltb n (length l) then Some (j, length l) else find_long n (S j) ls'
  end.

(** The content of a file, parsed. [k] is the number of leading fields that
    form the index: the fields of the first data line beyond the header. *)
Definition parse_csv (c : csv) : result frame :=
  match csv_header c with
  | [] => Err (EmptyDataError "No columns to parse from file")
  | _ =>
      let n := length (csv_header c) in
      let k := match csv_lines c with [] => 0 | l :: _ => length l - n end in
      match find_long (n + k) 0 (csv_lines c) with
      | Some (j, m) =>
          Err (ParserError ("Error tokenizing data. C error: Expected " ++ nat_str (n + k)
                            ++ " fields in line " ++ nat_str (j + 2) ++ ", saw "
                            ++ nat_str m ++ nl))
      | None =>
          let lines := map (fun l => skipn k (pad (n + k) "" l)) (csv_lines c) in
          let kinds := map (fun j => column_kind (map (fun l => nth j l "") lines))
                           (seq 0 n) in
          let cells_of l := map (fun '(kd, s) => read_field kd s) (combine kinds l) in
          Ok (mk_frame (column_names (csv_header c))
                (map (fun '(i, l) => mk_row i (cells_of l))
                     (combine (seq 0 (length lines)) lines)))
      end
  end.

Definition read_csv (path : string) : result frame :=
  match find_file fs path with
  | None => Err (FileNotFoundError (expand_user fs path))
  | Some c => parse_csv c
  end.

(** ** df['date'] = pd.to_datetime(df['date']) *)

Definition nat_strings : list string := ["NaT"; "nat"; "NAT"; "nan"; "NaN"; "none"; "None"].

Definition is_nat_string (s : string) : bool := existsb (String.eqb s) nat_strings.

Definition is_now (s : string) : bool := String.eqb s "now" || String.eqb s "today".

(** [first_non_null] skips missing values, empty texts, the NaT texts and
    ["now"]/["today"]. *)
Definition skip_for_guess (v : value) : bool :=
  match v with
  | VNA => true
  | VStr s => String.eqb s "" || is_nat_string s || is_now s
  | _ => false
  end.

(** The format inferred from the first date text, if any. *)
Definition date_format (vals : list value) : option string :=
  match find (fun v => negb (skip_for_guess v)) vals with
  | Some (VStr s) => guess_format parse_date s
  | _ => None
  end.

Definition try_hint : string :=
  ". You might want to try:" ++ nl ++
  "    - passing `format` if your strings have a consistent format;" ++ nl ++
  "    - passing `format='ISO8601'` if your strings are all ISO8601 but not necessarily in exactly the same format;" ++ nl ++
  "    - passing `format='mixed'`, and the format will be inferred for each element individually. You might want to use `dayfirst` alongside this.".

(** One cell at position [i] of the converted column. Numbers are
    nanoseconds since the epoch. *)
Definition date_cell (fmt : option string) (i : nat) (v : value) : result value :=
  match v with
  | VNA => Ok VNA
  | VNum z | VFloat z => Ok (VTime z)
  | VTime t => Ok (VTime t)
  | VStr s =>
      if String.eqb s "" || is_nat_string s then Ok VNA
      else
        match fmt with
        | Some f =>
            if format_is_iso parse_date f && is_now s then Ok (VTime (clock parse_date i))
            else
              match strptime parse_date f s with
              | Parsed t => Ok (VTime t)
              | Failed m => Err (ValueError (m ++ ", at position " ++ nat_str i ++ try_hint))
              end
        | None =>
            if is_now s then Ok (VTime (clock parse_date i))
            else
              match dateutil parse_date s with
              | Parsed t => Ok (VTime t)
              | Failed m => Err (ValueError (m ++ ", at position " ++ nat_str i))
              end
        end
  end.


Fixpoint convert_from (fmt : option string) (i : nat) (l : list value) : result (list value) :=
  match l with
  | [] => Ok []
  | v :: l' => x <- date_cell fmt i v ;; xs <- convert_from fmt (S i) l' ;; Ok (x :: xs)
  end.

(** [_convert_listlike_datetimes] *)
Definition convert_listlike (vals : list value) : result (list value) :=
  convert_from (date_format vals) 0 vals.

(** The values of the column, each one once, in order of first occurrence. *)
Fixpoint uniq_from (seen : list value) (l : list value) : list value :=
  match l with
  | [] => []
  | v :: l' =>
      if existsb (value_eqb v) seen then uniq_from seen l'
      else v :: uniq_from (v :: seen) l'
  end.

Definition uniq (l : list value) : list value := uniq_from [] l.

(** [cache_array[v]] *)
Fixpoint lookup_val (keys vs : list value) (v : value) : value :=
  match keys, vs with
  | k :: ks, x :: xs => if value_eqb k v then x else lookup_val ks xs v
  | _, _ => VNA
  end.

(** [pd.to_datetime] on a column: through the unique values when
    [should_cache] says so and some value repeats ([_maybe_cache]). *)
Definition to_datetime (vals : list value) : result (list value) :=
  let u := uniq vals in
  if use_cache parse_date vals && Nat.ltb (length u) (length vals) then
    cs <- convert_listlike u ;; Ok (map (lookup_val u cs) vals)
  else convert_listlike vals.

Definition convert_dates (df : frame) : result frame :=
  match col_index (header df) "date" with
  | None => Err (KeyError "date")
  | Some i =>
      vs <- to_datetime (map (fun r => nth i (cells r) VNA) (rows df)) ;;
      Ok (mk_frame (header df)
            (map (fun '(r, v) => mk_row (idx r) (set_nth i v (cells r)))
                 (combine (rows df) vs)))
  end.

End Engine.

(** ** df.sort_values(by=['merchant', 'date']) *)

(** The sort key (merchant, date), compared lexicographically. *)
Definition key_cmp (h : list string) (a b : row) : comparison :=
  match cmp_val (get h "merchant" a) (get h "merchant" b) with
  | Eq => cmp_val (get h "date" a) (get h "date" b)
  | c => c
  end.

(** Stable insertion: [x] goes before the first row whose key is not
    smaller than its own, so rows with equal keys keep their input order. *)
Fixpoint insert_row (h : list string) (x : row) (l : list row) : list row :=
  match l with
  | [] => [x]
  | y :: ys =>
      match key_cmp h y x with
      | Lt => y :: insert_row h x ys
      | _ => x :: y :: ys
      end
  end.

Fixpoint sort_rows (h : list string) (l : list row) : list row :=
  match l with
  | [] => []
  | x :: xs => insert_row h x (sort_rows h xs)
  end.

Definition sort_values (df : frame) : result frame :=
  match col_index (header df) "merchant", col_index (header df) "date" with
  | None, _ => Err (KeyError "merchant")
  | _, None => Err (KeyError "date")
  | Some _, Some _ => Ok (mk_frame (header df) (sort_rows (header df) (rows df)))
  end.

(** ** df[df.duplicated('merchant', keep=False)] *)

(** The rows of one merchant, in frame order. *)
Definition merchant_partition (h : list string) (k : value) (l : list row) : list row :=
  filter (fun r => value_eqb (get h "merchant" r) k) l.

Definition count_key (h : list string) (k : value) (l : list row) : nat :=
  length (merchant_partition h k l).

Definition duplicated_merchant (df : frame) : list bool :=
  map (fun r => Nat.leb 2 (count_key (header df) (get (header df) "merchant" r) (rows df)))
    (rows df).

Fixpoint filter_mask {A} (m : list bool) (l : list A) : list A :=
  match m, l with
  | b :: m', x :: l' => if b then x :: filter_mask m' l' else filter_mask m' l'
  | _, _ => []
  end.

Definition recurring (df : frame) : frame :=
  mk_frame (header df) (filter_mask (duplicated_merchant df) (rows df)).

(** ** recurring.groupby('merchant')['amount'].diff() *)

(** The last row already seen (most recent first in [acc]) of group [k]. *)
Fixpoint find_prev (h : list string) (k : value) (acc : list row) : option row :=
  match acc with
  | [] => None
  | p :: ps => if value_eqb (get h "merchant" p) k then Some p else find_prev h k ps
  end.

(** [new - old] on two cells of the amount column, [old] taken from the
    shifted (float64) column: NaN when a side is missing, the float64
    difference of two numbers; two texts (an object column) raise. The
    cells of one column have one kind. *)
Definition sub_amount (new old : value) : result float64 :=
  match new, old with
  | VNA, _ | _, VNA => Ok FNaN
  | _, _ =>
      match num_value new, num_value old with
      | Some a, Some b => Ok (FVal (f64_sub a b))
      | _, _ => Err (TypeError "unsupported operand type(s) for -: 'str' and 'str'")
      end
  end.

(** Rows whose merchant is missing belong to no group (groupby drops NaN
    keys) and get NaN. *)
Definition diff_one (h : list string) (acc : list row) (r : row) : result float64 :=
  match get h "merchant" r with
  | VNA => Ok FNaN
  | k =>
      match find_prev h k acc with
      | None => Ok FNaN
      | Some p => sub_amount (get h "amount" r) (get h "amount" p)
      end
  end.

Fixpoint diff_aux (h : list string) (acc : list row) (rs : list row) : result (list float64) :=
  match rs with
  | [] => Ok []
  | r :: rs' =>
      d <- diff_one h acc r ;;
      ds <- diff_aux h (r :: acc) rs' ;;
      Ok (d :: ds)
  end.

Definition groupby_diff (df : frame) : result (list float64) :=
  match col_index (header df) "amount" with
  | None => Err (KeyError "Column not found: amount")
  | Some _ => diff_aux (header df) [] (rows df)
  end.

(** ** recurring['price_change'] = ... *)

Definition with_col (h : list string) (name : string) : list string :=
  match col_index h name with
  | Some _ => h
  | None => h ++ [name]
  end.

Definition put_col (h : list string) (name : string) (v : value) (r : row) : row :=
  match col_index h name with
  | Some i => mk_row (idx r) (set_nth i v (cells r))
  | None => mk_row (idx r) (cells r ++ [v])
  end.

Definition assign_price_change (df : frame) (pcs : list float64) : frame :=
  mk_frame (with_col (header df) "price_change")
    (map (fun '(r, d) => put_col (header df) "price_change" (float_to_value d) r)
       (combine (rows df) pcs)).

(** ** find_subscription_leeches *)

Section Pipeline.

Variable fs : file_system.
Variable parse_num : string -> option Z.
Variable parse_date : date_parser.

(** Lines 13-14. *)
Definition parsed (csv_file : string) : result frame :=
  df <- read_csv fs parse_num csv_file ;;
  convert_dates parse_date df.

(** Line 15. *)
Definition sorted_frame (csv_file : string) : result frame :=
  df <- parsed csv_file ;;
  sort_values df.

(** Lines 17-19: the recurring rows with their price change. *)
Definition price_changes (csv_file : string) : result (list (row * float64)) :=
  df <- sorted_frame csv_file ;;
  let rec := recurring df in
  pcs <- groupby_diff rec ;;
  Ok (combine (rows rec) pcs).

Definition find_subscription_leeches (csv_file : string) : result frame :=
  df <- sorted_frame csv_file ;;
  let rec := recurring df in
  pcs <- groupby_diff rec ;;
  let rec' := assign_price_change rec pcs in
  Ok (mk_frame (header rec') (filter_mask (map float_gt0 pcs) (rows rec'))).

End Pipeline.

(** ** leeches.to_json(orient='records') *)

#[local] Set Warnings "-register-all".

Inductive json :=
| JNull
| JNum (z : Z)
| JFloat (z : Z)
| JStr (s : string)
| JArr (l : list json)
| JObj (l : list (string * json)).

(** Timestamps are written as milliseconds since the epoch. *)
Definition cell_json (v : value) : json :=
  match v with
  | VNum z => JNum z
  | VFloat z => JFloat z
  | VStr s => JStr s
  | VTime t => JNum (Z.quot t 1000000)
  | VNA => JNull
  end.

Definition record_json (h : list string) (r : row) : json :=
  JObj (combine h (map cell_json (cells r))).

Definition to_json_records (df : frame) : json :=
  JArr (map (record_json (header df)) (rows df)).

(** ujson's escaping with [ensure_ascii]: the quote, the backslash and the
    slash, the short control escapes, and [\u00hh] for the other control
    characters and for every character beyond ASCII. *)
Definition json_char (c : ascii) : string :=
  let n := nat_of_ascii c in
  if Nat.eqb n 34 then backslash ++ dq
  else if Nat.eqb n 92 then backslash ++ backslash
  else if Nat.eqb n 47 then backslash ++ "/"
  else if Nat.eqb n 8 then backslash ++ "b"
  else if Nat.eqb n 12 then backslash ++ "f"
  else if Nat.eqb n 10 then backslash ++ "n"
  else if Nat.eqb n 13 then backslash ++ "r"
  else if Nat.eqb n 9 then backslash ++ "t"
  else if Nat.ltb n 32 || Nat.leb 128 n then backslash ++ "u00" ++ hex2 n
  else String c EmptyString.

Definition escape (s : string) : string :=
  String.concat "" (map json_char (list_ascii_of_string s)).

Section Render.

Variable show_num : num_format.

Fixpoint render (j : json) : string :=
  match j with
  | JNull => "null"
  | JNum z => show_int show_num z
  | JFloat z => show_float show_num z
  | JStr s => dq ++ escape s ++ dq
  | JArr l => "[" ++ String.concat "," (map render l) ++ "]"
  | JObj l =>
      "{" ++ String.concat "," (map (fun '(k, v) => dq ++ escape k ++ dq ++ ":" ++ render v) l)
      ++ "}"
  end.

End Render.

(** ** SubscriptionTools.analyze_transactions *)

Definition no_hikes : string := "No price hikes found.".

Definition analyze_transactions (fs : file_system) (parse_num : string -> option Z)
    (parse_date : date_parser) (show_num : num_format) (csv_path : string) : string :=
  match find_subscription_leeches fs parse_num parse_date csv_path with
  | Err e => "Error: " ++ str_exn e
  | Ok leeches =>
      match rows leeches with
      | [] => no_hikes
      | _ => render show_num (to_json_records leeches)
      end
  end.

(** ** Concrete instances of the parameters, for evaluating the model *)

Module Demo.

Fixpoint parse_digits (s : string) (acc : Z) : option Z :=
  match s with
  | EmptyString => Some acc
  | String c s' =>
      let n := nat_of_ascii c in
      if Nat.leb 48 n && Nat.leb n 57
      then parse_digits s' (acc * 10 + Z.of_nat (n - 48))%Z
      else None
  end.

(** Integers written in decimal, with an optional minus sign. *)
Definition num (s : string) : option Z :=
  match s with
  | EmptyString => None
  | String "-"%char (String _ _ as t) => option_map Z.opp (parse_digits t 0)
  | _ => parse_digits s 0
  end.

(** Dates written YYYY-MM-DD, read as the number YYYYMMDD000000: it orders
    the dates as their timestamps do, and is written out as YYYYMMDD. *)
Definition ymd (s : string) : option Z :=
  if Nat.eqb (String.length s) 10
     && Ascii.eqb (ascii_of_nat 45) (match String.get 4 s with Some c => c | None => "a"%char end)
     && Ascii.eqb (ascii_of_nat 45) (match String.get 7 s with Some c => c | None => "a"%char end)
  then
    match parse_digits (substring 0 4 s) 0, parse_digits (substring 5 2 s) 0,
          parse_digits (substring 8 2 s) 0 with
    | Some y, Some m, Some d => Some (((y * 100 + m) * 100 + d) * 1000000)%Z
    | _, _, _ => None
    end
  else None.

Definition iso_ymd : string := "%Y-%m-%d".

Definition guess (s : string) : option string :=
  match ymd s with Some _ => Some iso_ymd | None => None end.

Definition strptime (f s : string) : parse_outcome :=
  match (if String.eqb f iso_ymd then ymd s else None) with
  | Some t => Parsed t
  | None => Failed ("time data " ++ dq ++ s ++ dq ++ " doesn't match format " ++ dq ++ f ++ dq)
  end.

Definition dateutil (s : string) : parse_outcome :=
  match ymd s with
  | Some t => Parsed t
  | None => Failed ("Unknown datetime string format, unable to parse: " ++ s)
  end.

(** [should_cache]: more than 50 values, and at most 70% of distinct values
    among the first tenth (at most 500) of them; [check_count * 0.7] is a
    float product, below the exact value for the listed counts. *)
Definition should_cache (vals : list value) : bool :=
  let n := length vals in
  if Nat.leb n 50 then false
  else
    let cc := if Nat.leb n 5000 then n / 10 else 500 in
    let u := length (uniq (firstn cc vals)) in
    negb (Nat.ltb (7 * cc) (10 * u)
          || (Nat.eqb (10 * u) (7 * cc)
              && existsb (Nat.eqb cc) [90; 170; 180; 330; 340; 350; 360])).

Definition clock (i : nat) : Z := (1700000000000000000 + Z.of_nat i)%Z.

Definition date : date_parser :=
  mk_date_parser guess (String.eqb iso_ymd) strptime dateutil should_cache clock.

Fixpoint show_digits (fuel : nat) (n : Z) (acc : string) : string :=
  match fuel with
  | O => acc
  | S f =>
      let acc' := String (ascii_of_nat (48 + Z.to_nat (Z.rem n 10))) acc in
      if Z.eqb (Z.quot n 10) 0 then acc' else show_digits f (Z.quot n 10) acc'
  end.

Definition show (z : Z) : string :=
  if Z.ltb z 0 then "-" ++ show_digits 64 (- z) "" else show_digits 64 z "".

Definition numbers : num_format := mk_num_format show (fun z => show z ++ ".0").

Definition hdr : list string := ["date"; "merchant"; "amount"].

Definition scenario_a : csv :=
  mk_csv hdr [["2024-01-01"; "A"; "10"]; ["2024-02-01"; "A"; "12"];
              ["2024-03-01"; "A"; "12"]; ["2024-01-01"; "B"; "5"]].

(** Scenario A and Scenario B of the spec, and a few more files. *)
Definition disk (path : string) : option csv :=
  if String.eqb path "a.csv" then Some scenario_a
  else if String.eqb path "a_copy.csv" then Some scenario_a
  else if String.eqb path "ab.csv" then
    Some (mk_csv hdr [["2024-02-01"; "B"; "5"]; ["2024-01-01"; "A"; "10"];
                      ["2024-01-01"; "B"; "4"]; ["2024-02-01"; "A"; "11"]])
  else if String.eqb path "textamount.csv" then
    Some (mk_csv hdr [["2024-01-01"; "A"; "10"]; ["2024-02-01"; "A"; "ten"]])
  else if String.eqb path "b.csv" then
    Some (mk_csv hdr [["2024-01-01"; "C"; "20"]; ["2024-02-01"; "C"; "15"];
                      ["2024-03-01"; "C"; "30"]])
  else if String.eqb path "empty.csv" then Some (mk_csv hdr [])
  else if String.eqb path "blank.csv" then Some (mk_csv [] [])
  else if String.eqb path "noamount.csv" then
    Some (mk_csv ["date"; "merchant"] [["2024-01-01"; "A"]; ["2024-02-01"; "A"]])
  else if String.eqb path "baddate.csv" then
    Some (mk_csv hdr [["2024-01-01"; "A"; "10"]; ["soon"; "A"; "12"]])
  else if String.eqb path "extra.csv" then
    Some (mk_csv ["date"; "merchant"; "amount"; "note"]
            [["2024-01-01"; "A"; "10"; "x"]; ["2024-02-01"; "A"; "12"; "y"]])
  else if String.eqb path "renamed.csv" then
    Some (mk_csv ["date"; "merchant"; "amount"; "note"; ""; "note"]
            [["2024-01-01"; "A"; "10"; "x"; "p"; "u"]; ["2024-02-01"; "A"; "12"; "y"; "q"; "v"]])
  else if String.eqb path "nodate.csv" then
    Some (mk_csv ["merchant"; "amount"] [["A"; "10"]; ["A"; "12"]])
  else if String.eqb path "nomerchant.csv" then
    Some (mk_csv ["date"; "amount"] [["2024-01-01"; "10"]; ["2024-02-01"; "12"]])
  else if String.eqb path "big.csv" then
    Some (mk_csv hdr [["2024-01-01"; "A"; "9007199254740992"];
                      ["2024-02-01"; "A"; "9007199254740995"]])
  else if String.eqb path "now.csv" then
    Some (mk_csv hdr [["now"; "A"; "10"]; ["now"; "A"; "12"]])
  else if String.eqb path "namerchant.csv" then
    Some (mk_csv hdr [["2024-01-01"; ""; "10"]; ["2024-02-01"; ""; "12"];
                      ["2024-01-01"; "A"; "5"]; ["2024-02-01"; "A"; "6"]])
  else if String.eqb path "index.csv" then
    Some (mk_csv hdr [["5"; "2024-01-01"; "A"; "10"]; ["5"; "2024-02-01"; "A"; "12"];
                      ["5"; "2024-01-01"; "B"; "4"]; ["5"; "2024-02-01"; "B"; "5"]])
  else None.

Definition files : file_system := mk_fs disk "/home/user" (fun _ => None).

End Demo.

(** * The Streamlit page (lines 39-127)

    Streamlit runs the whole script again at every interaction; [page_run]
    is one such run. The widgets' values are its input, the files on disk
    its state. The LLM, the agents and the crew are external: [build]
    stands for the constructors of lines 68-105 (it returns the message of
    the exception they raise, if any), [kickoff] for lines 109-110, and
    [fresh] for the name that [tempfile.NamedTemporaryFile] picks. Both
    [build] and [kickoff] may write files (crewai keeps a lock file in the
    temporary directory). *)

(** What the page shows, in the order of the calls. Texts that are fixed in
    the source are named by their constructor. *)
Inductive ui_event :=
| PageConfig                          (* st.set_page_config *)
| PageTitle                           (* st.title *)
| PageIntro                           (* st.markdown of the tag line *)
| SidebarHeader                       (* st.header("API Configuration") *)
| SecretsError                        (* the exception of st.secrets.get, which ends the run *)
| KeyInput                            (* st.text_input("Cerebras API Key") *)
| NoKeyWarning                        (* st.warning *)
| Uploader                            (* st.file_uploader *)
| FindButton                          (* st.button *)
| StatusBox                           (* st.status("Initializing Agents...") *)
| SearchingNote                       (* st.write("Searching for leeches...") *)
| StatusComplete                      (* status.update(label="Analysis Complete!") *)
| ScriptHeader                        (* st.subheader *)
| ScriptText (raw : string)           (* st.markdown(result.raw) *)
| ScriptDownload (raw file : string)  (* st.download_button *)
| ErrorBox (msg : string)             (* st.error *)
| TipInfo.                            (* st.info *)

(** The values the widgets hold in one run. *)
Record page_input := mk_page_input {
  secrets_file : bool;          (* a secrets file exists; without one, st.secrets.get
                                   raises StreamlitSecretNotFoundError *)
  secret_key : option string;   (* st.secrets.get("CEREBRAS_API_KEY") when it returns:
                                   None when the secrets have no such key *)
  typed_key : string;           (* the text input, "" when empty *)
  upload : option string;       (* the bytes of the uploaded file *)
  pressed : bool                (* st.button *)
}.

(** Files on disk: path and content. *)
Definition store := list (string * string).

Inductive crew_outcome :=
| Done (raw : string)
| Raised (msg : string).

(** [st.secrets.get(...) or st.text_input(...)] once [st.secrets.get] has
    returned: the text input is only created when the secret is missing or
    empty. *)
Definition key_of (i : page_input) : string * list ui_event :=
  match secret_key i with
  | Some k => if String.eqb k "" then (typed_key i, [KeyInput]) else (k, [])
  | None => (typed_key i, [KeyInput])
  end.

Definition exists_file (path : string) (st : store) : bool :=
  existsb (fun e => String.eqb (fst e) path) st.

Definition remove_file (path : string) (st : store) : store :=
  filter (fun e => negb (String.eqb (fst e) path)) st.

Definition task1 (tmp_path : string) : string :=
  "Analyze the CSV at " ++ tmp_path ++ " and list all price hikes.".

Definition task2 : string :=
  "Take the findings and write a 3-step negotiation email for the largest hike.".

Section Page.

Variable fresh : store -> string.
Variable build : string -> string -> store -> option string * store.
Variable kickoff : string -> list string -> store -> crew_outcome * store.

(** Lines 64-124: the body of the [try], the [except], and the [finally]
    that deletes the temporary file. *)
Definition crew_run (key tmp_path : string) (st : store) : list ui_event * store :=
  let '(err, st1) := build key tmp_path st in
  let '(ev, st2) :=
    match err with
    | Some msg => ([ErrorBox ("An error occurred: " ++ msg)], st1)
    | None =>
        let '(out, st2) := kickoff key [task1 tmp_path; task2] st1 in
        (SearchingNote ::
         match out with
         | Raised msg => [ErrorBox ("An error occurred: " ++ msg)]
         | Done raw =>
             [StatusComplete; ScriptHeader; ScriptText raw; ScriptDownload raw "negotiation.txt"]
         end, st2)
    end in
  (StatusBox :: ev, if exists_file tmp_path st2 then remove_file tmp_path st2 else st2).

Definition page_run (i : page_input) (st : store) : list ui_event * store :=
  if negb (secrets_file i) then ([PageConfig; PageTitle; PageIntro; SidebarHeader; SecretsError], st)
  else
  let '(key, key_events) := key_of i in
  let top := ([PageConfig; PageTitle; PageIntro; SidebarHeader] ++ key_events ++
              (if String.eqb key "" then [NoKeyWarning] else []) ++ [Uploader])%list in
  match upload i with
  | Some bytes =>
      if String.eqb key "" then ((top ++ [TipInfo])%list, st)
      else
        let tmp_path := fresh st in
        let st1 := (tmp_path, bytes) :: st in
        if pressed i then
          let '(ev, st2) := crew_run key tmp_path st1 in
          ((top ++ FindButton :: ev)%list, st2)
        else ((top ++ [FindButton])%list, st1)
  | None => ((top ++ [TipInfo])%list, st)
  end.

(** Successive runs of the script. *)
Fixpoint page_runs (ins : list page_input) (st : store) : list (list ui_event) * store :=
  match ins with
  | [] => ([], st)
  | i :: ins' =>
      let '(ev, st') := page_run i st in
      let '(evs, st'') := page_runs ins' st' in
      (ev :: evs, st'')
  end.

End Page.

(** * Properties *)

Open Scope list_scope.

(** ** Orders *)

Lemma ascii_compare_N (a b : ascii) :
  Ascii.compare a b = N.compare (N_of_ascii a) (N_of_ascii b).
Proof. reflexivity. Qed.

Ltac n_compare_facts E :=
  match type of E with
  | N.compare _ _ = Eq => apply N.compare_eq in E
  | N.compare _ _ = Lt => apply (proj1 (N.compare_lt_iff _ _)) in E
  | _ => idtac
  end.

Lemma string_compare_lt_trans (a b c : string) :
  String.compare a b = Lt -> String.compare b c = Lt -> String.compare a c = Lt.
Proof.
  revert b c; induction a as [|x a IH]; intros [|y b] [|z c]; simpl;
    try discriminate; auto.
  rewrite !ascii_compare_N.
  destruct (N.compare (N_of_ascii x) (N_of_ascii y)) eqn:E1;
  destruct (N.compare (N_of_ascii y) (N_of_ascii z)) eqn:E2;
  intros H1 H2; try discriminate; n_compare_facts E1; n_compare_facts E2.
  - assert (E3 : N.compare (N_of_ascii x) (N_of_ascii z) = Eq)
      by (apply N.compare_eq_iff; congruence).
    rewrite E3; eauto.
  - assert (E3 : N.compare (N_of_ascii x) (N_of_ascii z) = Lt)
      by (apply N.compare_lt_iff; lia).
    now rewrite E3.
  - assert (E3 : N.compare (N_of_ascii x) (N_of_ascii z) = Lt)
      by (apply N.compare_lt_iff; lia).
    now rewrite E3.
  - assert (E3 : N.compare (N_of_ascii x) (N_of_ascii z) = Lt)
      by (apply N.compare_lt_iff; lia).
    now rewrite E3.
Qed.

Lemma cmp_val_eq (a b : value) : cmp_val a b = Eq -> a = b.
Proof.
  destruct a, b; simpl; intro H; try discriminate;
    try (apply Z.compare_eq in H; subst; reflexivity);
    try (apply String.compare_eq_iff in H; subst; reflexivity);
    reflexivity.
Qed.

Lemma string_compare_refl (s : string) : String.compare s s = Eq.
Proof.
  induction s as [|c s IH]; simpl; auto.
  now rewrite ascii_compare_N, N.compare_refl.
Qed.

Lemma cmp_val_refl (a : value) : cmp_val a a = Eq.
Proof.
  destruct a; simpl; try apply Z.compare_refl; try reflexivity.
  apply string_compare_refl.
Qed.

Lemma cmp_val_antisym (a b : value) : cmp_val b a = CompOpp (cmp_val a b).
Proof.
  destruct a, b; simpl; try apply Z.compare_antisym;
    try apply String.compare_antisym; reflexivity.
Qed.

Lemma cmp_val_lt_trans (a b c : value) :
  cmp_val a b = Lt -> cmp_val b c = Lt -> cmp_val a c = Lt.
Proof.
  destruct a, b, c; simpl; intros H1 H2; try discriminate; auto;
    try (rewrite Z.compare_lt_iff in *; lia);
    eapply string_compare_lt_trans; eauto.
Qed.

Lemma value_eqb_iff (a b : value) : value_eqb a b = true <-> a = b.
Proof.
  unfold value_eqb; split.
  - destruct (cmp_val a b) eqn:E; try discriminate; intros _; now apply cmp_val_eq.
  - intros ->; now rewrite cmp_val_refl.
Qed.

Lemma value_eqb_refl (a : value) : value_eqb a a = true.
Proof. now apply value_eqb_iff. Qed.

Lemma key_cmp_eq h a b :
  key_cmp h a b = Eq ->
  get h "merchant" a = get h "merchant" b /\ get h "date" a = get h "date" b.
Proof.
  unfold key_cmp.
  destruct (cmp_val (get h "merchant" a) (get h "merchant" b)) eqn:E;
    try discriminate; intro H; split; now apply cmp_val_eq.
Qed.

Lemma key_cmp_antisym h a b : key_cmp h b a = CompOpp (key_cmp h a b).
Proof.
  unfold key_cmp; rewrite (cmp_val_antisym (get h "merchant" a)).
  destruct (cmp_val (get h "merchant" a) (get h "merchant" b)); simpl; auto.
  apply cmp_val_antisym.
Qed.

Lemma key_cmp_trans h a b c :
  key_cmp h a b <> Gt -> key_cmp h b c = Lt -> key_cmp h a c = Lt.
Proof.
  unfold key_cmp.
  destruct (cmp_val (get h "merchant" a) (get h "merchant" b)) eqn:E1.
  - apply cmp_val_eq in E1; rewrite E1.
    destruct (cmp_val (get h "merchant" b) (get h "merchant" c)) eqn:E2;
      intros H1 H2; try discriminate; auto.
    destruct (cmp_val (get h "date" a) (get h "date" b)) eqn:E3; try congruence.
    + apply cmp_val_eq in E3; rewrite E3; exact H2.
    + eapply cmp_val_lt_trans; eauto.
  - intros _ H2.
    destruct (cmp_val (get h "merchant" b) (get h "merchant" c)) eqn:E2;
      try discriminate.
    + apply cmp_val_eq in E2; rewrite <- E2, E1; reflexivity.
    + rewrite (cmp_val_lt_trans _ _ _ E1 E2); reflexivity.
  - intro H1; congruence.
Qed.

(** Sort order of the frame: (merchant, date), then the original position. *)
Definition row_before (h : list string) (a b : row) : Prop :=
  key_cmp h a b = Lt \/ (key_cmp h a b = Eq /\ idx a < idx b).

Lemma row_before_trans h a b c :
  row_before h a b -> row_before h b c -> row_before h a c.
Proof.
  unfold row_before; intros [H1|[H1 I1]] [H2|[H2 I2]].
  - left; eapply key_cmp_trans; eauto; congruence.
  - left. destruct (key_cmp_eq _ _ _ H2) as [M D].
    unfold key_cmp in *; rewrite <- M, <- D; exact H1.
  - left; eapply key_cmp_trans; eauto; congruence.
  - right. destruct (key_cmp_eq _ _ _ H1) as [M1 D1].
    split; [|lia]. unfold key_cmp in *; rewrite M1, D1; exact H2.
Qed.


(** ** The stable sort *)

Lemma insert_row_perm h x l : Permutation (insert_row h x l) (x :: l).
Proof.
  induction l as [|y ys IH]; simpl; auto.
  destruct (key_cmp h y x); auto.
  rewrite IH; apply perm_swap.
Qed.

Lemma sort_rows_perm h l : Permutation (sort_rows h l) l.
Proof.
  induction l as [|x xs IH]; simpl; auto.
  rewrite insert_row_perm; auto.
Qed.

Lemma insert_row_hdrel h x y l :
  row_before h y x -> HdRel (row_before h) y l ->
  HdRel (row_before h) y (insert_row h x l).
Proof.
  intros Hyx Hl; destruct l as [|z zs]; simpl; auto.
  destruct (key_cmp h z x); auto; inversion Hl; auto.
Qed.

Lemma insert_row_sorted h x l :
  Sorted (row_before h) l -> Forall (fun y => idx x < idx y) l ->
  Sorted (row_before h) (insert_row h x l).
Proof.
  induction l as [|y ys IH]; simpl; intros Hs Hf; auto.
  inversion Hs as [|? ? Hys Hhd]; subst; inversion Hf as [|? ? Hxy Hf']; subst.
  destruct (key_cmp h y x) eqn:E.
  - constructor; [exact Hs|constructor].
    unfold row_before; right; split; [|lia].
    rewrite key_cmp_antisym, E; reflexivity.
  - constructor; [now apply IH|].
    apply insert_row_hdrel; auto; now left.
  - constructor; [exact Hs|constructor].
    unfold row_before; left; rewrite key_cmp_antisym, E; reflexivity.
Qed.

Lemma sort_rows_sorted h l :
  StronglySorted (fun a b => idx a < idx b) l -> Sorted (row_before h) (sort_rows h l).
Proof.
  induction l as [|x xs IH]; simpl; intros Hs; auto.
  inversion Hs as [|? ? Hxs Hf]; subst.
  apply insert_row_sorted; auto.
  apply Forall_forall; intros y Hy.
  apply (Permutation_in _ (sort_rows_perm h xs)) in Hy.
  rewrite Forall_forall in Hf; auto.
Qed.

Lemma sort_rows_strongly_sorted h l :
  StronglySorted (fun a b => idx a < idx b) l ->
  StronglySorted (row_before h) (sort_rows h l).
Proof.
  intro Hs; apply Sorted_StronglySorted.
  - intros a b c; apply row_before_trans.
  - now apply sort_rows_sorted.
Qed.

(** ** Generic list facts *)

Lemma filter_mask_in {A} (m : list bool) (l : list A) x :
  In x (filter_mask m l) -> In x l.
Proof.
  revert l; induction m as [|b m IH]; intros [|y l]; simpl; try tauto.
  destruct b; simpl; intuition.
Qed.

Lemma filter_mask_strongly_sorted {A} (R : A -> A -> Prop) m l :
  StronglySorted R l -> StronglySorted R (filter_mask m l).
Proof.
  revert l; induction m as [|b m IH]; intros [|y l] Hs; simpl; try constructor.
  inversion Hs as [|? ? Hl Hf]; subst.
  destruct b; auto.
  constructor; auto.
  rewrite Forall_forall in *; intros x Hx; apply Hf; eapply filter_mask_in; eauto.
Qed.

Lemma filter_mask_forall {A} (P : A -> Prop) m l :
  Forall P l -> Forall P (filter_mask m l).
Proof.
  rewrite !Forall_forall; intros H x Hx; apply H; eapply filter_mask_in; eauto.
Qed.

Lemma filter_mask_map {A B} (f : A -> B) m l :
  filter_mask m (map f l) = map f (filter_mask m l).
Proof.
  revert l; induction m as [|b m IH]; intros [|y l]; simpl; auto.
  destruct b; simpl; now rewrite IH.
Qed.

Lemma mapM_forall2 {A B} (f : A -> result B) l l' :
  mapM f l = Ok l' -> Forall2 (fun a b => f a = Ok b) l l'.
Proof.
  revert l'; induction l as [|x xs IH]; simpl; intros l' H.
  - inversion H; constructor.
  - destruct (f x) eqn:E1; simpl in H; try discriminate.
    destruct (mapM f xs) eqn:E2; simpl in H; try discriminate.
    inversion H; subst; constructor; auto.
Qed.

Lemma map_fst_combine {A B} (l1 : list A) (l2 : list B) :
  length l1 = length l2 -> map fst (combine l1 l2) = l1.
Proof.
  revert l2; induction l1 as [|x l1 IH]; intros [|y l2] H; simpl in *;
    try discriminate; auto.
  f_equal; auto.
Qed.

Lemma length_pad {A} n (d : A) l : length (pad n d l) = n.
Proof.
  revert l; induction n as [|n IH]; intros [|x l]; simpl; auto.
Qed.

Lemma length_set_nth {A} i (v : A) l : length (set_nth i v l) = length l.
Proof.
  revert i; induction l as [|x l IH]; intros [|i]; simpl; auto.
Qed.

Lemma nth_set_nth_other {A} i j (v d : A) l :
  i <> j -> nth j (set_nth i v l) d = nth j l d.
Proof.
  revert i j; induction l as [|x l IH]; intros [|i] [|j] H; simpl; auto;
    try congruence.
Qed.

Lemma idx_seq_sorted (l : list row) s :
  map idx l = seq s (length l) -> StronglySorted (fun a b => idx a < idx b) l.
Proof.
  revert s; induction l as [|x l IH]; simpl; intros s H; constructor.
  - injection H as H1 H2; eapply IH; eauto.
  - injection H as H1 H2.
    apply Forall_forall; intros y Hy.
    assert (Hin : In (idx y) (seq (S s) (length l))) by (rewrite <- H2; now apply in_map).
    apply in_seq in Hin; lia.
Qed.

Lemma forall2_map_eq {A B} (g : A -> B) (l l' : list A) :
  Forall2 (fun a b => g b = g a) l l' -> map g l' = map g l.
Proof. induction 1; simpl; congruence. Qed.

Lemma strongly_sorted_map {A B} (R : B -> B -> Prop) (f : A -> B) l :
  StronglySorted (fun a b => R (f a) (f b)) l -> StronglySorted R (map f l).
Proof.
  induction 1 as [|x l Hl IH Hf]; simpl; constructor; auto.
  rewrite Forall_forall in *; intros y Hy.
  apply in_map_iff in Hy as [z [<- Hz]]; auto.
Qed.

Lemma strongly_sorted_combine {A B} (R : A -> A -> Prop) (l : list A) (l2 : list B) :
  StronglySorted R l -> StronglySorted (fun p q => R (fst p) (fst q)) (combine l l2).
Proof.
  revert l2; induction l as [|x l IH]; intros [|y l2] Hs; simpl;
    try apply SSorted_nil.
  inversion Hs as [|? ? Hl Hf]; subst.
  constructor; auto.
  rewrite Forall_forall in *; intros [a b] Hab; simpl.
  apply Hf; now apply in_combine_l in Hab.
Qed.

(** ** Columns *)

Lemma col_index_some h n i :
  col_index h n = Some i -> nth_error h i = Some n /\ i < length h.
Proof.
  revert i; induction h as [|c h IH]; intros i; simpl; try discriminate.
  destruct (String.eqb_spec c n) as [->|Hne].
  - intro H; inversion H; subst; simpl; split; auto; lia.
  - destruct (col_index h n) as [j|] eqn:E; simpl; try discriminate.
    intro H; inversion H; subst; simpl.
    destruct (IH j eq_refl); split; auto; lia.
Qed.

Lemma col_index_app h l n :
  col_index (h ++ l) n =
  match col_index h n with
  | Some i => Some i
  | None => option_map (Nat.add (length h)) (col_index l n)
  end.
Proof.
  induction h as [|c h IH]; simpl.
  - destruct (col_index l n); reflexivity.
  - destruct (String.eqb c n); auto.
    rewrite IH; destruct (col_index h n); simpl; auto.
    destruct (col_index l n); reflexivity.
Qed.

(** Writing the [c] column leaves every other column as it was. *)
Lemma get_put_col h c name v r :
  c <> name -> length (cells r) = length h ->
  get (with_col h c) name (put_col h c v r) = get h name r.
Proof.
  intros Hne Hlen; unfold get, with_col, put_col.
  destruct (col_index h c) as [i|] eqn:Ec; simpl.
  - destruct (col_index h name) as [j|] eqn:En; auto.
    apply nth_set_nth_other.
    intros ->.
    destruct (col_index_some _ _ _ Ec) as [E1 _].
    destruct (col_index_some _ _ _ En) as [E2 _].
    congruence.
  - rewrite col_index_app.
    destruct (col_index h name) as [j|] eqn:En; simpl.
    + apply app_nth1.
      destruct (col_index_some _ _ _ En); lia.
    + destruct (String.eqb_spec c name); simpl; congruence.
Qed.

Lemma idx_put_col h c v r : idx (put_col h c v r) = idx r.
Proof. unfold put_col; destruct (col_index h c); reflexivity. Qed.

Lemma key_cmp_put_col h v w a b :
  length (cells a) = length h -> length (cells b) = length h ->
  key_cmp (with_col h "price_change") (put_col h "price_change" v a)
    (put_col h "price_change" w b) = key_cmp h a b.
Proof.
  intros Ha Hb; unfold key_cmp.
  rewrite !get_put_col by (auto; discriminate).
  reflexivity.
Qed.

(** ** Column names *)

Lemma length_name_unnamed h : length (name_unnamed h) = length h.
Proof.
  unfold name_unnamed; rewrite length_map, length_combine, length_seq; apply Nat.min_id.
Qed.

Lemma nth_name_unnamed h j :
  j < length h ->
  nth j (name_unnamed h) "" =
  if String.eqb (nth j h "") "" then ("Unnamed: " ++ nat_str j)%string else nth j h "".
Proof.
  intro Hj; unfold name_unnamed.
  set (f := fun '(i, n) => if String.eqb n "" then ("Unnamed: " ++ nat_str i)%string else n).
  rewrite (nth_indep _ "" (f (0, ""))) by
    (rewrite length_map, length_combine, length_seq, Nat.min_id; exact Hj).
  rewrite map_nth, combine_nth by apply length_seq.
  rewrite seq_nth by exact Hj; reflexivity.
Qed.

Lemma dedup_step_eq this counts i :
  dedup_step (this, counts) i =
  let col := nth i this "" in
  let '(col', cur', counts') :=
    if Nat.eqb (lookup counts col) 0 then (col, 0, counts)
    else bump (S (length this)) this counts col col (lookup counts col) in
  (set_nth i col' this, (col', S cur') :: counts').
Proof. reflexivity. Qed.

Lemma length_dedup_step st i : length (fst (dedup_step st i)) = length (fst st).
Proof.
  destruct st as [this counts]; rewrite dedup_step_eq; cbv zeta.
  destruct (if Nat.eqb _ 0 then _ else _) as [[c cur] counts'].
  apply length_set_nth.
Qed.

Lemma length_fold_dedup order st :
  length (fst (fold_left dedup_step order st)) = length (fst st).
Proof.
  revert st; induction order as [|i order IH]; intro st; simpl; auto.
  now rewrite IH, length_dedup_step.
Qed.

Lemma length_column_names h : length (column_names h) = length h.
Proof. unfold column_names; rewrite length_fold_dedup; apply length_name_unnamed. Qed.

Lemma in_set_nth {A} i (v x : A) l : In x (set_nth i v l) -> In x l \/ x = v.
Proof.
  revert i; induction l as [|y l IH]; intros [|i]; simpl; try tauto.
  - intros [->|H]; [right; reflexivity|left; right; exact H].
  - intros [->|H]; [left; left; reflexivity|].
    destruct (IH i H) as [H'|H']; [left; right; exact H'|right; exact H'].
Qed.

Lemma nth_set_nth_same {A} i (v d : A) l : i < length l -> nth i (set_nth i v l) d = v.
Proof.
  revert i; induction l as [|x l IH]; intros [|i] H; simpl in *; try lia; auto.
  apply IH; lia.
Qed.

(** The loop that looks for a free name returns its argument or a name
    [old.n]. *)
Lemma bump_name fuel this counts old col cur :
  fst (fst (bump fuel this counts old col cur)) = col \/
  exists n, fst (fst (bump fuel this counts old col cur)) = (old ++ "." ++ n)%string.
Proof.
  revert counts col cur; induction fuel as [|f IH]; intros counts col cur; simpl; auto.
  destruct (Nat.eqb cur 0); simpl; auto.
  match goal with
  | |- context [bump f this ?c' old ?col' ?cur'] =>
      destruct (IH c' col' cur') as [->|[n ->]]
  end; right; eexists; reflexivity.
Qed.

(** It only records counts for [old]. *)
Lemma bump_counts fuel this counts old col cur k :
  0 < lookup (snd (bump fuel this counts old col cur)) k -> k = old \/ 0 < lookup counts k.
Proof.
  revert counts col cur; induction fuel as [|f IH]; intros counts col cur; simpl; auto.
  destruct (Nat.eqb cur 0); simpl; auto.
  intro H; apply IH in H as [H|H]; auto.
  simpl in H; destruct (String.eqb_spec old k); auto.
Qed.

Lemma bump_mono fuel this counts old col cur k :
  0 < lookup counts k -> 0 < lookup (snd (bump fuel this counts old col cur)) k.
Proof.
  revert counts col cur; induction fuel as [|f IH]; intros counts col cur H; simpl; auto.
  destruct (Nat.eqb cur 0); simpl; auto.
  apply IH; simpl; destruct (String.eqb old k); lia.
Qed.

Lemma has_char_dot a b : has_char "." (a ++ "." ++ b) = true.
Proof.
  unfold has_char; induction a as [|c a IH]; [reflexivity|].
  simpl in IH |- *; rewrite IH; apply orb_true_r.
Qed.

(** Every column name is a name of the header (with the empty ones named
    [Unnamed: i]) or has a suffix [.n]. *)
Lemma column_names_from h x :
  In x (column_names h) ->
  In x (name_unnamed h) \/ exists a b, x = (a ++ "." ++ b)%string.
Proof.
  pose (P := fun x => In x (name_unnamed h) \/ exists a b, x = (a ++ "." ++ b)%string).
  assert (G : forall order st,
             (forall i, In i order -> i < length (fst st)) ->
             (forall y, In y (fst st) -> P y) ->
             forall y, In y (fst (fold_left dedup_step order st)) -> P y).
  { induction order as [|i order IH]; intros st Hlt Hall; simpl; auto.
    apply IH.
    - intros j Hj; rewrite length_dedup_step; apply Hlt; simpl; auto.
    - destruct st as [this counts]; rewrite dedup_step_eq; cbv zeta; simpl in Hlt, Hall.
      assert (Hcol : In (nth i this "") this) by (apply nth_In; apply Hlt; left; reflexivity).
      destruct (Nat.eqb _ 0).
      + simpl; intros y Hy; apply in_set_nth in Hy as [Hy| ->]; auto.
      + pose proof (bump_name (S (length this)) this counts (nth i this "") (nth i this "")
                      (lookup counts (nth i this ""))) as Hb.
        destruct (bump _ _ _ _ _ _) as [[c cur] counts']; simpl in Hb |- *.
        intros y Hy; apply in_set_nth in Hy as [Hy| ->]; auto.
        destruct Hb as [->|[n ->]]; auto.
        right; exists (nth i this ""), n; reflexivity. }
  unfold column_names; intro Hx; apply (G _ (name_unnamed h, [])) in Hx; [exact Hx| |];
    simpl.
  - intros i Hi; rewrite length_name_unnamed.
    apply in_app_or in Hi as [Hi|Hi]; apply filter_In in Hi as [Hi _]; apply in_seq in Hi; lia.
  - intros y Hy; left; exact Hy.
Qed.

(** The state of the renaming loop once the positions [D] are done: the
    names counted so far are at done positions, and the other positions
    still hold their first name. *)
Definition names_inv (h : list string) (D : list nat)
    (st : list string * list (string * nat)) : Prop :=
  length (fst st) = length h /\
  (forall j, In j D -> j < length h) /\
  (forall k, 0 < lookup (snd st) k -> exists j, In j D /\ nth j (fst st) "" = k) /\
  (forall j, ~ In j D -> nth j (fst st) "" = nth j (name_unnamed h) "").

Lemma names_inv_step h D st i :
  names_inv h D st -> i < length h -> ~ In i D ->
  names_inv h (i :: D) (dedup_step st i) /\
  0 < lookup (snd (dedup_step st i)) (nth i (name_unnamed h) "") /\
  (forall k, 0 < lookup (snd st) k -> 0 < lookup (snd (dedup_step st i)) k).
Proof.
  unfold names_inv.
  destruct st as [this counts]; intros [Hlen [HD [Ha Hb]]] Hi HiD; cbn [fst snd] in *.
  rewrite <- (Hb i HiD).
  assert (Hoth : forall j v, In j D -> nth j (set_nth i v this) "" = nth j this "")
    by (intros j v Hj; apply nth_set_nth_other; intros ->; contradiction).
  assert (Hnew : forall v, nth i (set_nth i v this) "" = v)
    by (intro v; apply nth_set_nth_same; lia).
  rewrite dedup_step_eq; cbv zeta.
  destruct (Nat.eqb (lookup counts (nth i this "")) 0) eqn:E0.
  - cbn [fst snd]; split; [split; [|split; [|split]]|split].
    + rewrite length_set_nth; exact Hlen.
    + intros j [<-|Hj]; auto.
    + intros k Hk; simpl in Hk.
      destruct (String.eqb_spec (nth i this "") k) as [Ek|Hne]; [subst k|].
      * exists i; split; [left; reflexivity|apply Hnew].
      * destruct (Ha k Hk) as [j [Hj Hjk]].
        exists j; split; [right; exact Hj|rewrite Hoth; auto].
    + intros j Hj; rewrite nth_set_nth_other by (intros ->; apply Hj; left; reflexivity).
      apply Hb; intro Hj'; apply Hj; right; exact Hj'.
    + simpl; rewrite String.eqb_refl; lia.
    + intros k Hk; simpl; destruct (String.eqb _ k); lia.
  - apply Nat.eqb_neq in E0.
    pose proof (fun k => bump_counts (S (length this)) this counts (nth i this "")
                           (nth i this "") (lookup counts (nth i this "")) k) as Hc1.
    pose proof (fun k => bump_mono (S (length this)) this counts (nth i this "")
                           (nth i this "") (lookup counts (nth i this "")) k) as Hc2.
    destruct (bump _ _ _ _ _ _) as [[c cur] counts']; cbn [fst snd] in Hc1, Hc2 |- *.
    split; [split; [|split; [|split]]|split].
    + rewrite length_set_nth; exact Hlen.
    + intros j [<-|Hj]; auto.
    + intros k Hk; simpl in Hk.
      destruct (String.eqb_spec c k) as [Ek|Hne]; [subst k|].
      * exists i; split; [left; reflexivity|apply Hnew].
      * destruct (Hc1 k Hk) as [->|Hk'].
        -- destruct (Ha (nth i this "")) as [j [Hj Hjk]]; [lia|].
           exists j; split; [right; exact Hj|rewrite Hoth; auto].
        -- destruct (Ha k Hk') as [j [Hj Hjk]].
           exists j; split; [right; exact Hj|rewrite Hoth; auto].
    + intros j Hj; rewrite nth_set_nth_other by (intros ->; apply Hj; left; reflexivity).
      apply Hb; intro Hj'; apply Hj; right; exact Hj'.
    + simpl; destruct (String.eqb c (nth i this "")); [lia|apply Hc2; lia].
    + intros k Hk; simpl; destruct (String.eqb c k); [lia|apply Hc2; exact Hk].
Qed.

Lemma names_inv_fold h order D st :
  NoDup order -> (forall i, In i order -> i < length h /\ ~ In i D) ->
  names_inv h D st ->
  names_inv h (rev order ++ D) (fold_left dedup_step order st) /\
  (forall i, In i order ->
     0 < lookup (snd (fold_left dedup_step order st)) (nth i (name_unnamed h) "")) /\
  (forall k, 0 < lookup (snd st) k -> 0 < lookup (snd (fold_left dedup_step order st)) k).
Proof.
  revert D st; induction order as [|i order IH]; intros D st Hnd Hord Hinv; simpl.
  - split; [exact Hinv|split; [intros i []|auto]].
  - inversion Hnd as [|? ? Hni Hnd']; subst.
    destruct (Hord i (or_introl eq_refl)) as [Hi HiD].
    destruct (names_inv_step h D st i Hinv Hi HiD) as [Hinv' [Hlk Hmono]].
    destruct (IH (i :: D) (dedup_step st i) Hnd') as [Hinv'' [Hall Hmono']].
    + intros j Hj; destruct (Hord j (or_intror Hj)) as [Hj1 Hj2]; split; auto.
      intros [->|H]; [exact (Hni Hj)|exact (Hj2 H)].
    + exact Hinv'.
    + rewrite <- app_assoc; simpl.
      split; [exact Hinv''|split].
      * intros j [<-|Hj]; auto.
      * intros k Hk; auto.
Qed.

Lemma nodup_app_disjoint {A} (l l' : list A) :
  NoDup l -> NoDup l' -> (forall a, In a l -> ~ In a l') -> NoDup (l ++ l').
Proof.
  induction 1 as [|x l Hx Hl IH]; simpl; auto.
  intros Hl' Hdis; constructor.
  - rewrite in_app_iff; intros [H|H]; [contradiction|].
    exact (Hdis x (or_introl eq_refl) H).
  - apply IH; auto; intros a Ha; apply Hdis; right; exact Ha.
Qed.

(** A non-empty name of the header is a column name. *)
Lemma column_names_keep h x :
  In x h -> x <> ""%string -> In x (column_names h).
Proof.
  intros Hx Hne.
  destruct (In_nth h x "" Hx) as [j [Hj Hjx]].
  unfold column_names.
  set (blank := fun i => String.eqb (nth i h "") "").
  set (order := (filter (fun i => negb (blank i)) (seq 0 (length h))
                 ++ filter blank (seq 0 (length h)))%list).
  assert (Hord : NoDup order).
  { apply nodup_app_disjoint; try (apply NoDup_filter, seq_NoDup).
    intros a Ha Ha'; apply filter_In in Ha as [_ Ha]; apply filter_In in Ha' as [_ Ha'].
    rewrite Ha' in Ha; discriminate. }
  assert (Hlt : forall i, In i order -> i < length h).
  { intros i Hi; apply in_app_or in Hi as [Hi|Hi]; apply filter_In in Hi as [Hi _];
      apply in_seq in Hi; lia. }
  assert (Hinv0 : names_inv h [] (name_unnamed h, [])).
  { split; [apply length_name_unnamed|split; [intros j0 []|split]].
    - intros k Hk; simpl in Hk; lia.
    - intros j0 _; reflexivity. }
  destruct (names_inv_fold h order [] (name_unnamed h, []) Hord) as [[Hlen [HD [Ha _]]] [Hall _]].
  - intros i Hi; split; [apply Hlt; exact Hi|intros []].
  - exact Hinv0.
  - assert (Hj_ord : In j order).
    { apply in_or_app; left; apply filter_In; split; [apply in_seq; lia|].
      unfold blank; rewrite Hjx; destruct (String.eqb_spec x ""); [contradiction|reflexivity]. }
    specialize (Hall j Hj_ord).
    rewrite nth_name_unnamed, Hjx in Hall by exact Hj.
    destruct (String.eqb_spec x "") as [E|_]; [contradiction|].
    destruct (Ha x Hall) as [j' [Hj' Hnth]].
    assert (Hin : In x (fst (fold_left dedup_step order (name_unnamed h, [])))).
    { rewrite <- Hnth; apply nth_In.
      rewrite Hlen; apply HD; exact Hj'. }
    exact Hin.
Qed.

(** A column name without a dot and not of the form [Unnamed: ...] is a
    name of the header. *)
Lemma column_names_plain h x :
  In x (column_names h) -> has_char "." x = false ->
  (forall s, x <> ("Unnamed: " ++ s)%string) -> In x h.
Proof.
  intros Hx Hdot Hun.
  destruct (column_names_from h x Hx) as [Hx'|[a [b ->]]].
  - unfold name_unnamed in Hx'; apply in_map_iff in Hx' as [[i n] [Hn Hin]].
    destruct (String.eqb n ""); [exfalso; exact (Hun _ (eq_sym Hn))|].
    subst x; eapply in_combine_r; eauto.
  - rewrite has_char_dot in Hdot; discriminate.
Qed.

Lemma required_in_column_names h col :
  In col ["date"; "merchant"; "amount"] -> (In col (column_names h) <-> In col h).
Proof.
  intros Hc; split; intro H.
  - apply (column_names_plain h col H).
    + destruct Hc as [<-|[<-|[<-|[]]]]; reflexivity.
    + intros s; destruct Hc as [<-|[<-|[<-|[]]]]; discriminate.
  - apply column_names_keep; auto.
    destruct Hc as [<-|[<-|[<-|[]]]]; discriminate.
Qed.

(** ** Dates *)


Lemma convert_from_length dp fmt i l vs :
  convert_from dp fmt i l = Ok vs -> length vs = length l.
Proof.
  revert i vs; induction l as [|v l IH]; simpl; intros i vs H.
  - inversion H; reflexivity.
  - destruct (date_cell dp fmt i v); simpl in H; try discriminate.
    destruct (convert_from dp fmt (S i) l) eqn:E; simpl in H; try discriminate.
    inversion H; subst; simpl; f_equal; eapply IH; eauto.
Qed.


Lemma to_datetime_length dp vals vs : to_datetime dp vals = Ok vs -> length vs = length vals.
Proof.
  unfold to_datetime, convert_listlike.
  destruct (use_cache dp vals && _).
  - destruct (convert_from _ _ _ (uniq vals)); simpl; intro H; try discriminate.
    inversion H; apply length_map.
  - apply convert_from_length.
Qed.


Lemma to_datetime_nil dp : to_datetime dp [] = Ok [].
Proof. unfold to_datetime; simpl; rewrite andb_false_r; reflexivity. Qed.













(** ** The stages of the pipeline *)

Definition wf_rows (h : list string) (l : list row) : Prop :=
  Forall (fun r => length (cells r) = length h) l.

Lemma numbered_rows_idx (g : list string -> list value) ls s :
  map idx (map (fun '(i, l) => mk_row i (g l)) (combine (seq s (length ls)) ls))
  = seq s (length ls).
Proof. revert s; induction ls as [|l ls IH]; intro s; simpl; auto; now rewrite IH. Qed.

Lemma numbered_rows_length (g : list string -> list value) ls s :
  length (map (fun '(i, l) => mk_row i (g l)) (combine (seq s (length ls)) ls)) = length ls.
Proof. rewrite length_map, length_combine, length_seq; apply Nat.min_id. Qed.

Lemma numbered_rows_in (g : list string -> list value) ls s r :
  In r (map (fun '(i, l) => mk_row i (g l)) (combine (seq s (length ls)) ls)) ->
  exists l, In l ls /\ cells r = g l.
Proof.
  intro H; apply in_map_iff in H as [[i l] [<- Hin]].
  exists l; split; [eapply in_combine_r; eauto|reflexivity].
Qed.

Lemma set_col_rows_idx i (l : list row) vs :
  length vs = length l ->
  map idx (map (fun '(r, v) => mk_row (idx r) (set_nth i v (cells r))) (combine l vs))
  = map idx l.
Proof.
  revert vs; induction l as [|r l IH]; intros [|v vs] H; simpl in *; try discriminate; auto.
  f_equal; apply IH; lia.
Qed.

Lemma set_col_rows_wf h i (l : list row) vs :
  wf_rows h l ->
  wf_rows h (map (fun '(r, v) => mk_row (idx r) (set_nth i v (cells r))) (combine l vs)).
Proof.
  unfold wf_rows; rewrite !Forall_forall; intros Hwf r Hr.
  apply in_map_iff in Hr as [[r0 v] [<- Hin]]; simpl.
  rewrite length_set_nth; apply Hwf; eapply in_combine_l; eauto.
Qed.

Lemma parse_csv_no_lines pn c :
  csv_header c <> [] -> csv_lines c = [] ->
  parse_csv pn c = Ok (mk_frame (column_names (csv_header c)) []).
Proof.
  intros Hh Hl; unfold parse_csv; rewrite Hl.
  destruct (csv_header c) eqn:Eh; [contradiction|reflexivity].
Qed.

Lemma parse_csv_shape pn c df :
  parse_csv pn c = Ok df ->
  header df = column_names (csv_header c) /\
  map idx (rows df) = seq 0 (length (rows df)) /\ wf_rows (header df) (rows df) /\
  length (rows df) = length (csv_lines c).
Proof.
  unfold parse_csv; intro H.
  destruct (csv_header c) as [|h0 hs] eqn:Eh; [discriminate|].
  lazy beta iota in H; rewrite <- Eh in H; cbv zeta in H.
  destruct (find_long _ 0 (csv_lines c)) as [[j m]|]; [discriminate|].
  injection H as <-; cbn [header rows].
  split; [rewrite Eh; reflexivity|].
  split; [rewrite numbered_rows_idx, numbered_rows_length; reflexivity|].
  split; [|rewrite numbered_rows_length, length_map; reflexivity].
  unfold wf_rows; rewrite Forall_forall; intros r Hr.
  apply numbered_rows_in in Hr as [l [Hl ->]].
  apply in_map_iff in Hl as [l0 [<- _]].
  rewrite length_map, length_combine, length_map, length_seq, length_skipn, length_pad,
    length_column_names.
  lia.
Qed.

Section Stages.

Variable fs : file_system.
Variable parse_num : string -> option Z.
Variable parse_date : date_parser.

Lemma read_csv_file p df :
  read_csv fs parse_num p = Ok df ->
  exists c, find_file fs p = Some c /\ parse_csv parse_num c = Ok df.
Proof. unfold read_csv; destruct (find_file fs p) as [c|]; [eauto|discriminate]. Qed.

Lemma read_csv_shape p df :
  read_csv fs parse_num p = Ok df ->
  map idx (rows df) = seq 0 (length (rows df)) /\ wf_rows (header df) (rows df).
Proof.
  intro H; destruct (read_csv_file _ _ H) as [c [_ Hc]].
  destruct (parse_csv_shape _ _ _ Hc) as [_ [H1 [H2 _]]]; auto.
Qed.

Lemma convert_dates_shape df df' :
  convert_dates parse_date df = Ok df' ->
  header df' = header df /\ map idx (rows df') = map idx (rows df) /\
  (wf_rows (header df) (rows df) -> wf_rows (header df') (rows df')) /\
  length (rows df') = length (rows df) /\
  exists i, col_index (header df) "date" = Some i.
Proof.
  unfold convert_dates.
  destruct (col_index (header df) "date") as [i|]; [|discriminate].
  destruct (to_datetime _ _) as [vs|] eqn:Ev; simpl; [|discriminate].
  intro H; injection H as <-; cbn [header rows].
  apply to_datetime_length in Ev; rewrite length_map in Ev.
  split; [reflexivity|split; [apply set_col_rows_idx; exact Ev|split]].
  - apply set_col_rows_wf.
  - split; [rewrite length_map, length_combine, Ev; apply Nat.min_id|eauto].
Qed.

Lemma parsed_shape p df :
  parsed fs parse_num parse_date p = Ok df ->
  map idx (rows df) = seq 0 (length (rows df)) /\ wf_rows (header df) (rows df).
Proof.
  unfold parsed.
  destruct (read_csv fs parse_num p) as [df0|] eqn:E; simpl; try discriminate.
  destruct (read_csv_shape _ _ E) as [Hidx Hwf].
  intro H; destruct (convert_dates_shape _ _ H) as [Hh [Hi [Hw [Hl _]]]].
  split; [rewrite Hi, Hl; exact Hidx|rewrite Hh in Hw |- *; apply Hw; exact Hwf].
Qed.

End Stages.

(** ** float64 rounding *)





(** ** Partitions and the groupby walk *)

Lemma filter_mask_map_self {A} (g : A -> bool) l :
  filter_mask (map g l) l = filter g l.
Proof. induction l as [|x l IH]; simpl; auto; destruct (g x); simpl; congruence. Qed.

Lemma filter_mask_combine {A B} (g : B -> bool) (l : list A) (m : list B) :
  filter_mask (map g m) (combine l m) = filter (fun x => g (snd x)) (combine l m).
Proof.
  revert l; induction m as [|d m IH]; intros [|x l]; simpl; auto.
  destruct (g d); simpl; now rewrite IH.
Qed.

Lemma partition_filter_key h k (g : value -> bool) l :
  merchant_partition h k (filter (fun r => g (get h "merchant" r)) l) =
  if g k then merchant_partition h k l else [].
Proof.
  unfold merchant_partition.
  induction l as [|x l IH]; simpl; [destruct (g k); auto|].
  destruct (value_eqb (get h "merchant" x) k) eqn:E.
  - apply value_eqb_iff in E; rewrite E.
    destruct (g k) eqn:G; simpl; rewrite ?E, ?value_eqb_iff; rewrite ?IH, ?G; auto.
    destruct (value_eqb k k) eqn:K; auto.
    assert (Hk : value_eqb k k = true) by now apply value_eqb_iff. congruence.
  - destruct (g (get h "merchant" x)); simpl; rewrite ?E; auto.
Qed.




Lemma find_prev_none h k l :
  merchant_partition h k l = [] -> find_prev h k (rev l) = None.
Proof.
  unfold merchant_partition; intro H.
  assert (H' : filter (fun r => value_eqb (get h "merchant" r) k) (rev l) = [])
    by (rewrite filter_rev, H; reflexivity).
  clear H; revert H'; generalize (rev l) as l'.
  induction l' as [|x l' IH]; simpl; auto.
  destruct (value_eqb (get h "merchant" x) k); try discriminate; auto.
Qed.

Lemma diff_aux_in h acc rs ds r d :
  diff_aux h acc rs = Ok ds -> In (r, d) (combine rs ds) ->
  exists pre post, rs = pre ++ r :: post /\ diff_one h (rev pre ++ acc) r = Ok d.
Proof.
  revert acc ds; induction rs as [|r0 rs IH]; simpl; intros acc ds H Hin.
  - inversion H; subst; contradiction.
  - destruct (diff_one h acc r0) as [d0|] eqn:E0; simpl in H; try discriminate.
    destruct (diff_aux h (r0 :: acc) rs) as [ds'|] eqn:E1; simpl in H; try discriminate.
    inversion H; subst; clear H; simpl in Hin.
    destruct Hin as [Heq|Hin].
    + inversion Heq; subst. exists [], rs; auto.
    + destruct (IH _ _ E1 Hin) as [pre [post [-> Hd]]].
      exists (r0 :: pre), post; split; auto.
      simpl; now rewrite <- app_assoc.
Qed.

Lemma diff_aux_at h acc rs ds pre r post :
  diff_aux h acc rs = Ok ds -> rs = pre ++ r :: post ->
  exists d, diff_one h (rev pre ++ acc) r = Ok d /\ In (r, d) (combine rs ds).
Proof.
  revert acc ds rs; induction pre as [|r0 pre IH]; simpl; intros acc ds rs H ->; simpl in H.
  - destruct (diff_one h acc r) as [d|] eqn:E0; simpl in H; try discriminate.
    destruct (diff_aux h (r :: acc) post) as [ds'|]; simpl in H; try discriminate.
    inversion H; subst; exists d; simpl; auto.
  - destruct (diff_one h acc r0) as [d0|]; simpl in H; try discriminate.
    destruct (diff_aux h (r0 :: acc) (pre ++ r :: post)) as [ds'|] eqn:E1;
      simpl in H; try discriminate.
    inversion H; subst; clear H.
    destruct (IH _ _ _ E1 eq_refl) as [d [Hd Hin]].
    exists d; split; [now rewrite <- app_assoc|simpl; auto].
Qed.

Lemma nodup_map_filter {A B} (f : A -> B) (g : A -> bool) l :
  NoDup (map f l) -> NoDup (map f (filter g l)).
Proof.
  induction l as [|x l IH]; simpl; intro H; auto.
  inversion H as [|? ? Hx Hl]; subst.
  destruct (g x); simpl; auto.
  constructor; auto.
  intro Hin; apply Hx.
  apply in_map_iff in Hin as [y [<- Hy]].
  apply in_map; eapply filter_In; eauto.
Qed.

Lemma nodup_map_inj {A B} (f : A -> B) l x y :
  NoDup (map f l) -> In x l -> In y l -> f x = f y -> x = y.
Proof.
  induction l as [|z l IH]; simpl; intros Hn Hx Hy Hf; try contradiction.
  inversion Hn as [|? ? Hz Hl]; subst.
  destruct Hx as [<-|Hx], Hy as [<-|Hy]; auto.
  - exfalso; apply Hz; rewrite Hf; now apply in_map.
  - exfalso; apply Hz; rewrite <- Hf; now apply in_map.
Qed.

Lemma strongly_sorted_filter {A} (R : A -> A -> Prop) (g : A -> bool) l :
  StronglySorted R l -> StronglySorted R (filter g l).
Proof.
  induction 1 as [|x l Hl IH Hf]; simpl; [constructor|].
  destruct (g x); auto.
  constructor; auto.
  rewrite Forall_forall in *; intros y Hy; apply Hf; eapply filter_In; eauto.
Qed.

Lemma strongly_sorted_impl_in {A} (R R' : A -> A -> Prop) l :
  (forall a b, In a l -> In b l -> R a b -> R' a b) ->
  StronglySorted R l -> StronglySorted R' l.
Proof.
  intros Himp Hs; induction Hs as [|x l Hl IH Hf]; constructor.
  - apply IH; intros a b Ha Hb; apply Himp; simpl; auto.
  - rewrite Forall_forall in *; intros y Hy; apply Himp; simpl; auto.
Qed.

Lemma permutation_filter {A} (g : A -> bool) l l' :
  Permutation l l' -> Permutation (filter g l) (filter g l').
Proof.
  induction 1; simpl; auto.
  - destruct (g x); auto.
  - destruct (g x), (g y); auto; apply perm_swap.
  - eapply perm_trans; eauto.
Qed.

Lemma diff_one_na h acc r :
  get h "merchant" r = VNA -> diff_one h acc r = Ok FNaN.
Proof. intro H; unfold diff_one; now rewrite H. Qed.

Lemma diff_one_eq h acc r :
  get h "merchant" r <> VNA ->
  diff_one h acc r =
  match find_prev h (get h "merchant" r) acc with
  | None => Ok FNaN
  | Some p => sub_amount (get h "amount" r) (get h "amount" p)
  end.
Proof. unfold diff_one; destruct (get h "merchant" r); congruence. Qed.




(** The first row of a merchant partition has no previous row: its price
    change is NaN. *)
Lemma first_row_nan h k rec f rest pre post :
  NoDup rec -> merchant_partition h k rec = f :: rest -> rec = pre ++ f :: post ->
  diff_one h (rev pre ++ []) f = Ok FNaN.
Proof.
  intros Hnd Hp Hrec.
  assert (Hf : In f (merchant_partition h k rec)) by (rewrite Hp; now left).
  unfold merchant_partition in Hf; apply filter_In in Hf as [_ Hk].
  apply value_eqb_iff in Hk.
  destruct (get h "merchant" f) eqn:Ek;
    [| | | |subst k; now apply diff_one_na].
  all: rewrite diff_one_eq by congruence; rewrite Ek, app_nil_r, find_prev_none;
    [reflexivity|].
  all: subst k; rewrite Hrec in Hp; unfold merchant_partition in *;
    rewrite filter_app in Hp; simpl in Hp; rewrite Ek, value_eqb_refl in Hp.
  all: destruct (filter _ pre) as [|g tl] eqn:Epre; auto; simpl in Hp; inversion Hp; subst g.
  all: assert (Hin : In f pre) by
      (eapply filter_In; rewrite Epre; now left).
  all: rewrite Hrec in Hnd; apply NoDup_remove_2 in Hnd;
    exfalso; apply Hnd; apply in_or_app; now left.
Qed.

Section PipelineFacts.

Variable fs : file_system.
Variable parse_num : string -> option Z.
Variable parse_date : date_parser.

Lemma sorted_frame_props p df :
  sorted_frame fs parse_num parse_date p = Ok df ->
  exists df0, parsed fs parse_num parse_date p = Ok df0 /\ header df = header df0 /\
    Permutation (rows df) (rows df0) /\
    StronglySorted (row_before (header df)) (rows df) /\
    NoDup (map idx (rows df)) /\ wf_rows (header df) (rows df).
Proof.
  unfold sorted_frame.
  destruct (parsed fs parse_num parse_date p) as [df0|] eqn:E; simpl; try discriminate.
  unfold sort_values.
  destruct (col_index (header df0) "merchant"), (col_index (header df0) "date");
    try discriminate.
  intro H; inversion H; subst; clear H; simpl.
  destruct (parsed_shape _ _ _ _ _ E) as [Hidx Hwf].
  exists df0; repeat split; auto.
  - apply sort_rows_perm.
  - apply sort_rows_strongly_sorted; eapply idx_seq_sorted; eauto.
  - eapply Permutation_NoDup; [apply Permutation_map; symmetry; apply sort_rows_perm|].
    rewrite Hidx; apply seq_NoDup.
  - unfold wf_rows in *; rewrite Forall_forall in *; intros r Hr; apply Hwf.
    eapply Permutation_in; [apply sort_rows_perm|exact Hr].
Qed.

Lemma recurring_rows df :
  rows (recurring df) =
  filter (fun r => Nat.leb 2 (count_key (header df) (get (header df) "merchant" r) (rows df)))
    (rows df).
Proof. unfold recurring, duplicated_merchant; simpl; apply filter_mask_map_self. Qed.

Lemma find_shape p out :
  find_subscription_leeches fs parse_num parse_date p = Ok out ->
  exists df pcs, sorted_frame fs parse_num parse_date p = Ok df /\
    groupby_diff (recurring df) = Ok pcs /\
    price_changes fs parse_num parse_date p = Ok (combine (rows (recurring df)) pcs) /\
    header out = with_col (header df) "price_change" /\
    rows out = map (fun x => put_col (header df) "price_change" (float_to_value (snd x)) (fst x))
                 (filter (fun x => float_gt0 (snd x)) (combine (rows (recurring df)) pcs)).
Proof.
  unfold find_subscription_leeches, price_changes.
  destruct (sorted_frame fs parse_num parse_date p) as [df|] eqn:E; simpl; try discriminate.
  destruct (groupby_diff (recurring df)) as [pcs|] eqn:G; simpl; try discriminate.
  intro H; inversion H; subst; clear H.
  exists df, pcs; repeat split; auto.
  unfold assign_price_change; simpl.
  rewrite <- filter_mask_combine, filter_mask_map.
  apply map_ext; intros [r d]; reflexivity.
Qed.

End PipelineFacts.


Lemma col_index_in h n : In n h -> exists i, col_index h n = Some i.
Proof.
  induction h as [|c h IH]; simpl; [tauto|].
  destruct (String.eqb_spec c n) as [->|Hne]; eauto.
  intros [->|Hin]; [congruence|].
  destruct (IH Hin) as [i ->]; simpl; eauto.
Qed.

Lemma col_index_some_in h n i : col_index h n = Some i -> In n h.
Proof.
  intro H; destruct (col_index_some _ _ _ H) as [H1 _].
  eapply nth_error_In; eauto.
Qed.

Lemma length_put_col h c v r :
  length (cells r) = length h ->
  length (cells (put_col h c v r)) = length (with_col h c).
Proof.
  unfold put_col, with_col; destruct (col_index h c); simpl; intro H.
  - now rewrite length_set_nth.
  - rewrite !length_app; simpl; lia.
Qed.

Lemma map_fst_combine_len {A B} (l1 : list A) (l2 : list B) :
  length l1 = length l2 -> map fst (combine l1 l2) = l1.
Proof. apply map_fst_combine. Qed.


(** ** The claims *)

Section Claims.

Variable fs : file_system.
Variable parse_num : string -> option Z.
Variable parse_date : date_parser.
Variable show_num : num_format.

Lemma parsed_header p c df0 :
  find_file fs p = Some c -> parsed fs parse_num parse_date p = Ok df0 ->
  header df0 = column_names (csv_header c).
Proof.
  intros Hfs; unfold parsed.
  destruct (read_csv fs parse_num p) as [df1|] eqn:E; simpl; [|discriminate].
  intro H; destruct (convert_dates_shape _ _ _ H) as [Hh _].
  destruct (read_csv_file _ _ _ _ E) as [c' [Hc' Hp]].
  rewrite Hfs in Hc'; injection Hc' as <-.
  destruct (parse_csv_shape _ _ _ Hp) as [Hh1 _].
  congruence.
Qed.


Lemma recurring_props p df :
  sorted_frame fs parse_num parse_date p = Ok df ->
  StronglySorted (row_before (header df)) (rows (recurring df)) /\
  NoDup (map idx (rows (recurring df))) /\
  wf_rows (header df) (rows (recurring df)) /\
  (forall r, In r (rows (recurring df)) -> In r (rows df)).
Proof.
  intro Hs.
  destruct (sorted_frame_props _ _ _ _ _ Hs) as [df0 [_ [_ [_ [Hsort [Hnd Hwf]]]]]].
  rewrite recurring_rows; repeat split.
  - now apply strongly_sorted_filter.
  - now apply nodup_map_filter.
  - unfold wf_rows in *; rewrite Forall_forall in *; intros r Hr; apply Hwf.
    eapply filter_In; eauto.
  - intros r Hr; eapply filter_In; eauto.
Qed.

Lemma recurring_partition df r :
  In r (rows (recurring df)) ->
  merchant_partition (header df) (get (header df) "merchant" r) (rows (recurring df)) =
  merchant_partition (header df) (get (header df) "merchant" r) (rows df).
Proof.
  rewrite recurring_rows; intro Hr.
  apply filter_In in Hr as [_ Hg].
  rewrite (partition_filter_key (header df) _
             (fun k => Nat.leb 2 (count_key (header df) k (rows df)))).
  now rewrite Hg.
Qed.


(** C2: a merchant with a single row in the input contributes no row to
    the output; for a merchant with two rows or more, the first row of its
    partition is kept by [duplicated(keep=False)] but gets price change NaN
    and is not emitted. *)
Theorem single_merchant_and_first_row_excluded p out df0 df k :
  find_subscription_leeches fs parse_num parse_date p = Ok out ->
  parsed fs parse_num parse_date p = Ok df0 ->
  sorted_frame fs parse_num parse_date p = Ok df ->
  (count_key (header df0) k (rows df0) = 1 ->
   forall o, In o (rows out) -> get (header out) "merchant" o <> k) /\
  (forall f rest,
     merchant_partition (header df) k (rows df) = f :: rest -> rest <> [] ->
     In f (rows (recurring df)) /\
     (exists pcl, price_changes fs parse_num parse_date p = Ok pcl /\ In (f, FNaN) pcl) /\
     (forall o, In o (rows out) -> idx o <> idx f)).
Proof.
  intros H Hp0 Hs.
  destruct (find_shape _ _ _ _ _ H) as [df' [pcs [Hs' [Hg [Hpc [Hh Hr]]]]]].
  rewrite Hs in Hs'; inversion Hs'; subst df'; clear Hs'.
  destruct (sorted_frame_props _ _ _ _ _ Hs) as [df1 [Hp1 [Hh1 [Hperm [_ [_ Hwf]]]]]].
  rewrite Hp0 in Hp1; inversion Hp1; subst df1; clear Hp1.
  destruct (recurring_props _ _ Hs) as [_ [Hnd [Hwfr Hsub]]].
  assert (Hnd' : NoDup (rows (recurring df))) by (eapply NoDup_map_inv; eauto).
  unfold groupby_diff in Hg.
  destruct (col_index (header (recurring df)) "amount"); try discriminate.
  simpl in Hg.
  (* an emitted row is the image of a recurring row whose price change is positive *)
  assert (Hout : forall o, In o (rows out) ->
            exists r z, o = put_col (header df) "price_change" (VFloat z) r /\
              In (r, FVal z) (combine (rows (recurring df)) pcs)).
  { intros o Ho; rewrite Hr in Ho; apply in_map_iff in Ho as [[r d] [Ho Hin]].
    apply filter_In in Hin as [Hin Hpos]; simpl in *.
    destruct d as [z|]; simpl in Hpos; try discriminate; eauto. }
  split.
  - intros Hcount o Ho Hk.
    destruct (Hout o Ho) as [r [z [-> Hin]]].
    assert (Hr_in : In r (rows (recurring df))) by (eapply in_combine_l; eauto).
    rewrite Hh, get_put_col in Hk
      by (try discriminate; unfold wf_rows in Hwfr; rewrite Forall_forall in Hwfr; auto).
    rewrite recurring_rows in Hr_in; apply filter_In in Hr_in as [_ Hg2].
    apply Nat.leb_le in Hg2; rewrite Hk in Hg2.
    unfold count_key, merchant_partition in Hg2, Hcount.
    rewrite Hh1, (Permutation_length (permutation_filter _ _ _ Hperm)) in Hg2.
    lia.
  - intros f rest Hpart Hrest.
    assert (Hf : In f (merchant_partition (header df) k (rows df))) by (rewrite Hpart; now left).
    assert (Hfk : get (header df) "merchant" f = k)
      by (unfold merchant_partition in Hf; apply filter_In in Hf as [_ Hk];
          now apply value_eqb_iff).
    assert (Hf_rec : In f (rows (recurring df))).
    { rewrite recurring_rows; apply filter_In; split.
      - unfold merchant_partition in Hf; eapply filter_In; eauto.
      - apply Nat.leb_le; rewrite Hfk; unfold count_key; rewrite Hpart; simpl.
        destruct rest; [congruence|simpl; lia]. }
    assert (Hpart' : merchant_partition (header df) k (rows (recurring df)) = f :: rest)
      by (rewrite <- Hfk, recurring_partition, Hfk; auto).
    assert (Hnan : forall pre post, rows (recurring df) = pre ++ f :: post ->
              diff_one (header df) (rev pre ++ []) f = Ok FNaN)
      by (intros; eapply first_row_nan; eauto).
    split; [auto|split].
    + destruct (in_split _ _ Hf_rec) as [pre [post Hsplit]].
      destruct (diff_aux_at _ _ _ _ _ _ _ Hg Hsplit) as [d [Hd Hin]].
      simpl in Hd; rewrite (Hnan pre post Hsplit) in Hd; inversion Hd; subst d.
      exists (combine (rows (recurring df)) pcs); split; auto.
    + intros o Ho Hidx.
      destruct (Hout o Ho) as [r [z [-> Hin]]].
      rewrite idx_put_col in Hidx.
      assert (Hr_in : In r (rows (recurring df))) by (eapply in_combine_l; eauto).
      assert (r = f) by (eapply nodup_map_inj; eauto); subst r.
      destruct (diff_aux_in _ _ _ _ _ _ Hg Hin) as [pre [post [Hsplit Hd]]].
      simpl in Hd; rewrite (Hnan pre post Hsplit) in Hd; discriminate.
Qed.

(** C3: the emitted rows are in (merchant, date) order, and rows with the
    same merchant and date keep the order of their original positions in
    the file ([idx]). *)
Theorem hikes_in_merchant_date_order p out :
  find_subscription_leeches fs parse_num parse_date p = Ok out ->
  StronglySorted (row_before (header out)) (rows out).
Proof.
  intro H.
  destruct (find_shape _ _ _ _ _ H) as [df [pcs [Hs [_ [_ [Hh Hr]]]]]].
  destruct (recurring_props _ _ Hs) as [Hrs [_ [Hrw _]]].
  rewrite Hh, Hr.
  apply strongly_sorted_map, strongly_sorted_filter.
  apply (strongly_sorted_impl_in (fun x y => row_before (header df) (fst x) (fst y))).
  - intros [a da] [b db] Ha Hb Hab; simpl in *.
    apply in_combine_l in Ha; apply in_combine_l in Hb.
    unfold wf_rows in Hrw; rewrite Forall_forall in Hrw.
    unfold row_before in *; rewrite key_cmp_put_col, !idx_put_col by auto.
    exact Hab.
  - now apply strongly_sorted_combine.
Qed.

(** C6: a file with the three columns and no data line is not an error:
    the result is an empty frame and the tool answers with the no-findings
    string, which is not an error string. *)
Theorem empty_input_no_findings p c :
  find_file fs p = Some c -> csv_lines c = [] ->
  In "date" (csv_header c) -> In "merchant" (csv_header c) -> In "amount" (csv_header c) ->
  find_subscription_leeches fs parse_num parse_date p
    = Ok (mk_frame (with_col (column_names (csv_header c)) "price_change") []) /\
  analyze_transactions fs parse_num parse_date show_num p = no_hikes /\
  (forall msg, analyze_transactions fs parse_num parse_date show_num p
               <> ("Error: " ++ msg)%string).
Proof.
  intros Hfs Hl Hd Hm Ha.
  assert (Hne : csv_header c <> []) by (intro E; rewrite E in Hd; destruct Hd).
  apply column_names_keep in Hd; [|discriminate].
  apply column_names_keep in Hm; [|discriminate].
  apply column_names_keep in Ha; [|discriminate].
  destruct (col_index_in _ _ Hd) as [id Hid].
  destruct (col_index_in _ _ Hm) as [im Him].
  destruct (col_index_in _ _ Ha) as [ia Hia].
  assert (Hf : find_subscription_leeches fs parse_num parse_date p
               = Ok (mk_frame (with_col (column_names (csv_header c)) "price_change") [])).
  { unfold find_subscription_leeches, sorted_frame, parsed, read_csv.
    rewrite Hfs, (parse_csv_no_lines _ _ Hne Hl); cbn [bind].
    unfold convert_dates; cbn [header rows map]; rewrite Hid, to_datetime_nil; cbn [bind].
    unfold sort_values; cbn [header rows]; rewrite Him, Hid; cbn [bind].
    unfold groupby_diff; cbn [header rows recurring]; rewrite Hia; reflexivity. }
  assert (Han : analyze_transactions fs parse_num parse_date show_num p = no_hikes)
    by (unfold analyze_transactions; now rewrite Hf).
  split; [exact Hf|split; [exact Han|]].
  rewrite Han; intros msg H; discriminate H.
Qed.

(** C7 (as amended): every serialized record has exactly the columns of the
    output frame as keys, and those are the column names of the frame read
    from the file (the header with pandas' names for empty and repeated
    names) followed by [price_change] (no new column when that name is
    already one): extra input columns are carried through. *)
Theorem output_record_keys p c out :
  find_file fs p = Some c -> find_subscription_leeches fs parse_num parse_date p = Ok out ->
  header out = with_col (column_names (csv_header c)) "price_change" /\
  (forall o, In o (rows out) ->
     exists kv, record_json (header out) o = JObj kv /\ map fst kv = header out).
Proof.
  intros Hfs H.
  destruct (find_shape _ _ _ _ _ H) as [df [pcs [Hs [_ [_ [Hh Hr]]]]]].
  destruct (sorted_frame_props _ _ _ _ _ Hs) as [df0 [Hp0 [Hh0 _]]].
  destruct (recurring_props _ _ Hs) as [_ [_ [Hwf _]]].
  rewrite (parsed_header _ _ _ Hfs Hp0) in Hh0.
  split; [now rewrite Hh, Hh0|].
  intros o Ho.
  exists (combine (header out) (map cell_json (cells o))); split; auto.
  apply map_fst_combine_len; rewrite length_map.
  rewrite Hr in Ho; apply in_map_iff in Ho as [[r d] [<- Hin]].
  apply filter_In in Hin as [Hin _]; apply in_combine_l in Hin.
  unfold wf_rows in Hwf; rewrite Forall_forall in Hwf.
  rewrite Hh; simpl; symmetry; apply length_put_col; auto.
Qed.


(** C10: [analyze_transactions] always returns a string: ["Error: "]
    followed by the message when the pipeline raises, the no-findings
    string when no row is emitted, and a JSON array of the rows
    otherwise. *)
Theorem analyze_transactions_outcomes p :
  (exists e, find_subscription_leeches fs parse_num parse_date p = Err e /\
     analyze_transactions fs parse_num parse_date show_num p = ("Error: " ++ str_exn e)%string)
  \/
  (exists out, find_subscription_leeches fs parse_num parse_date p = Ok out /\
     rows out = [] /\ analyze_transactions fs parse_num parse_date show_num p = no_hikes)
  \/
  (exists out body, find_subscription_leeches fs parse_num parse_date p = Ok out /\
     rows out <> [] /\
     analyze_transactions fs parse_num parse_date show_num p
       = render show_num (to_json_records out) /\
     analyze_transactions fs parse_num parse_date show_num p = ("[" ++ body ++ "]")%string).
Proof.
  unfold analyze_transactions.
  destruct (find_subscription_leeches fs parse_num parse_date p) as [out|e].
  - destruct (rows out) as [|o os] eqn:Er.
    + right; left; exists out; auto.
    + right; right.
      exists out, (String.concat "," (map (render show_num)
                    (map (record_json (header out)) (rows out)))).
      split; [reflexivity|split; [congruence|]].
      unfold to_json_records; rewrite Er; split; reflexivity.
  - left; exists e; auto.
Qed.

Lemma find_ok_columns p out :
  find_subscription_leeches fs parse_num parse_date p = Ok out ->
  exists df0, parsed fs parse_num parse_date p = Ok df0 /\
    In "date" (header df0) /\ In "merchant" (header df0) /\ In "amount" (header df0).
Proof.
  unfold find_subscription_leeches, sorted_frame.
  destruct (parsed fs parse_num parse_date p) as [df0|]; simpl; try discriminate.
  unfold sort_values.
  destruct (col_index (header df0) "merchant") eqn:Em; try discriminate.
  destruct (col_index (header df0) "date") eqn:Ed; try discriminate.
  simpl; unfold groupby_diff; simpl.
  destruct (col_index (header df0) "amount") eqn:Ea; simpl; try discriminate.
  intros _; exists df0; repeat split; eapply col_index_some_in; eauto.
Qed.

(** C4 (as amended): when the file lacks one of the columns [date],
    [merchant] or [amount], the run does not produce a frame; the exception
    is caught by [analyze_transactions], which returns the string
    ["Error: "] followed by its message. When the file is read and its
    dates convert, with [date] and [merchant] present, a missing [amount]
    is the [KeyError] ['Column not found: amount']. *)
Theorem missing_column_error_string p c :
  find_file fs p = Some c ->
  (forall col, In col ["date"; "merchant"; "amount"] -> ~ In col (csv_header c) ->
   exists e, find_subscription_leeches fs parse_num parse_date p = Err e /\
     analyze_transactions fs parse_num parse_date show_num p
       = ("Error: " ++ str_exn e)%string) /\
  (forall df0, parsed fs parse_num parse_date p = Ok df0 ->
   In "date" (csv_header c) -> In "merchant" (csv_header c) -> ~ In "amount" (csv_header c) ->
   find_subscription_leeches fs parse_num parse_date p = Err (KeyError "Column not found: amount") /\
   analyze_transactions fs parse_num parse_date show_num p
     = ("Error: " ++ str_exn (KeyError "Column not found: amount"))%string).
Proof.
  intros Hfs; split.
  - intros col Hcol Hnot.
    destruct (find_subscription_leeches fs parse_num parse_date p) as [out|e] eqn:E.
    + exfalso.
      destruct (find_ok_columns _ _ E) as [df0 [Hp0 Hin]].
      rewrite (parsed_header _ _ _ Hfs Hp0) in Hin.
      apply Hnot, (required_in_column_names _ _ Hcol).
      destruct Hcol as [<-|[<-|[<-|[]]]]; tauto.
    + exists e; split; auto; unfold analyze_transactions; now rewrite E.
  - intros df0 Hp0 Hd Hm Ha.
    assert (Hd' : In "date" (header df0)).
    { rewrite (parsed_header _ _ _ Hfs Hp0).
      apply (required_in_column_names _ "date"); [simpl; tauto|exact Hd]. }
    assert (Hm' : In "merchant" (header df0)).
    { rewrite (parsed_header _ _ _ Hfs Hp0).
      apply (required_in_column_names _ "merchant"); [simpl; tauto|exact Hm]. }
    assert (Ha' : ~ In "amount" (header df0)).
    { rewrite (parsed_header _ _ _ Hfs Hp0).
      rewrite (required_in_column_names _ "amount"); [exact Ha|simpl; tauto]. }
    destruct (col_index_in _ _ Hd') as [id Hid].
    destruct (col_index_in _ _ Hm') as [im Him].
    assert (Hna : col_index (header df0) "amount" = None).
    { destruct (col_index (header df0) "amount") eqn:E; auto.
      exfalso; apply Ha'; eapply col_index_some_in; eauto. }
    assert (E : find_subscription_leeches fs parse_num parse_date p
                = Err (KeyError "Column not found: amount")).
    { unfold find_subscription_leeches, sorted_frame; rewrite Hp0; simpl.
      unfold sort_values; rewrite Him, Hid; simpl.
      unfold groupby_diff; simpl; now rewrite Hna. }
    split; auto; unfold analyze_transactions; now rewrite E.
Qed.

(** C9 (as amended): the first row of every merchant partition of the
    recurring rows gets the price change NaN, a float64 value; the filter
    [price_change > 0] drops it because the comparison of NaN with 0 is
    false, and as a column value NaN is the missing value. *)
Theorem first_row_price_change_nan p df k f rest pcl :
  sorted_frame fs parse_num parse_date p = Ok df ->
  merchant_partition (header df) k (rows (recurring df)) = f :: rest ->
  price_changes fs parse_num parse_date p = Ok pcl ->
  In (f, FNaN) pcl /\ float_gt0 FNaN = false /\ float_to_value FNaN = VNA.
Proof.
  intros Hs Hpart Hpc.
  split; [|split; reflexivity].
  unfold price_changes in Hpc; rewrite Hs in Hpc; simpl in Hpc.
  destruct (groupby_diff (recurring df)) as [pcs|] eqn:Hg; simpl in Hpc; try discriminate.
  inversion Hpc; subst pcl; clear Hpc.
  destruct (recurring_props _ _ Hs) as [_ [Hnd _]].
  assert (Hnd' : NoDup (rows (recurring df))) by (eapply NoDup_map_inv; eauto).
  assert (Hf : In f (rows (recurring df))).
  { assert (Hf : In f (merchant_partition (header df) k (rows (recurring df))))
      by (rewrite Hpart; now left).
    unfold merchant_partition in Hf; apply filter_In in Hf as [Hf _]; exact Hf. }
  unfold groupby_diff in Hg.
  destruct (col_index (header (recurring df)) "amount"); try discriminate.
  destruct (in_split _ _ Hf) as [pre [post Hsplit]].
  destruct (diff_aux_at _ _ _ _ _ _ _ Hg Hsplit) as [d [Hd Hin]].
  simpl in Hd.
  rewrite (first_row_nan (header df) k (rows (recurring df)) f rest pre post Hnd' Hpart Hsplit)
    in Hd.
  inversion Hd; subst d; exact Hin.
Qed.

Lemma mapM_err {A B} (f : A -> result B) l e :
  mapM f l = Err e -> exists x, In x l /\ f x = Err e.
Proof.
  induction l as [|x xs IH]; simpl; intro H; try discriminate.
  destruct (f x) eqn:E1; simpl in H.
  - destruct (mapM f xs) eqn:E2; simpl in H; try discriminate.
    inversion H; subst; destruct (IH eq_refl) as [y [Hy Hf]]; eauto.
  - inversion H; subst; eauto.
Qed.

Lemma forall2_in_l {A B} (R : A -> B -> Prop) l l' x :
  Forall2 R l l' -> In x l -> exists y, R x y.
Proof.
  induction 1 as [|a b l l' Hab _ IH]; simpl; [tauto|].
  intros [<-|Hx]; eauto.
Qed.










Lemma find_ok_unfold p df pcs :
  sorted_frame fs parse_num parse_date p = Ok df -> groupby_diff (recurring df) = Ok pcs ->
  find_subscription_leeches fs parse_num parse_date p =
  Ok (mk_frame (header (assign_price_change (recurring df) pcs))
        (filter_mask (map float_gt0 pcs) (rows (assign_price_change (recurring df) pcs)))).
Proof. intros Hs Hg; unfold find_subscription_leeches; rewrite Hs; simpl; now rewrite Hg. Qed.




End Claims.

(** * More properties of the pipeline *)

Section Extras.

Variable fs : file_system.
Variable parse_num : string -> option Z.
Variable parse_date : date_parser.
Variable show_num : num_format.

Lemma forall2_length {A B} (R : A -> B -> Prop) l l' : Forall2 R l l' -> length l = length l'.
Proof. induction 1; simpl; auto. Qed.




Lemma diff_aux_length h acc rs ds : diff_aux h acc rs = Ok ds -> length ds = length rs.
Proof.
  revert acc ds; induction rs as [|r rs IH]; simpl; intros acc ds H.
  - now inversion H.
  - destruct (diff_one h acc r); simpl in H; try discriminate.
    destruct (diff_aux h (r :: acc) rs) eqn:E; simpl in H; try discriminate.
    inversion H; subst; simpl; f_equal; eapply IH; eauto.
Qed.

Lemma combine_pair_unique {A B} (l : list A) (m : list B) x a b :
  NoDup l -> In (x, a) (combine l m) -> In (x, b) (combine l m) -> a = b.
Proof.
  revert m; induction l as [|y l IH]; intros [|z m] Hnd Ha Hb; simpl in *; try tauto.
  inversion Hnd as [|? ? Hy Hl]; subst.
  destruct Ha as [Ha|Ha], Hb as [Hb|Hb].
  - inversion Ha; inversion Hb; congruence.
  - inversion Ha; subst; exfalso; apply Hy; eapply in_combine_l; eauto.
  - inversion Hb; subst; exfalso; apply Hy; eapply in_combine_l; eauto.
  - eapply IH; eauto.
Qed.

Lemma nodup_map_combine {A B C} (f : A -> C) (l : list A) (m : list B) :
  NoDup (map f l) -> NoDup (map (fun x => f (fst x)) (combine l m)).
Proof.
  revert m; induction l as [|x l IH]; intros [|y m] H; simpl; try apply NoDup_nil.
  inversion H as [|? ? Hx Hl]; subst.
  constructor; auto.
  intro Hin; apply in_map_iff in Hin as [[x' y'] [Hf Hin]]; simpl in Hf.
  apply Hx; rewrite <- Hf; apply in_map; eapply in_combine_l; eauto.
Qed.

Lemma map_fst_filter_combine {A B} (g : A -> bool) (l : list A) (m : list B) :
  length l = length m -> map fst (filter (fun x => g (fst x)) (combine l m)) = filter g l.
Proof.
  revert m; induction l as [|x l IH]; intros [|y m] H; simpl in *; try discriminate; auto.
  destruct (g x); simpl; f_equal; auto.
Qed.

Lemma length_filter_filter_le {A} (P Q : A -> bool) l :
  length (filter P (filter Q l)) <= length (filter P l).
Proof.
  induction l as [|x l IH]; simpl; auto.
  destruct (Q x), (P x) eqn:E; simpl; rewrite ?E; simpl; lia.
Qed.

(** When the first element of [l] that satisfies [P] fails [Q], at most all
    the other elements satisfying [P] pass [Q]. *)
Lemma length_filter_first_excluded {A} (P Q : A -> bool) l :
  match filter P l with [] => True | x :: _ => Q x = false end ->
  length (filter P (filter Q l)) <= length (filter P l) - 1.
Proof.
  induction l as [|x l IH]; simpl; auto.
  destruct (P x) eqn:Ep, (Q x) eqn:Eq; simpl; rewrite ?Ep; intro H; try congruence.
  - pose proof (length_filter_filter_le P Q l); simpl; lia.
  - apply IH; auto.
  - apply IH; auto.
Qed.

Lemma parsed_length p c df0 :
  find_file fs p = Some c -> parsed fs parse_num parse_date p = Ok df0 ->
  length (rows df0) = length (csv_lines c).
Proof.
  intros Hfs; unfold parsed.
  destruct (read_csv fs parse_num p) as [df1|] eqn:E; simpl; [|discriminate].
  intro H; destruct (convert_dates_shape _ _ _ H) as [_ [_ [_ [Hl _]]]].
  destruct (read_csv_file _ _ _ _ E) as [c' [Hc' Hp]].
  rewrite Hfs in Hc'; injection Hc' as <-.
  destruct (parse_csv_shape _ _ _ Hp) as [_ [_ [_ Hl1]]].
  congruence.
Qed.

(** The shared view of a successful run: the emitted rows are the recurring
    rows of the sorted frame with a positive price change. *)
Lemma find_view p out :
  find_subscription_leeches fs parse_num parse_date p = Ok out ->
  exists df0 df pcs,
    parsed fs parse_num parse_date p = Ok df0 /\
    sorted_frame fs parse_num parse_date p = Ok df /\
    header df = header df0 /\ Permutation (rows df) (rows df0) /\
    wf_rows (header df) (rows df) /\
    NoDup (rows (recurring df)) /\
    diff_aux (header df) [] (rows (recurring df)) = Ok pcs /\
    header out = with_col (header df) "price_change" /\
    rows out = map (fun x => put_col (header df) "price_change" (float_to_value (snd x)) (fst x))
                 (filter (fun x => float_gt0 (snd x)) (combine (rows (recurring df)) pcs)).
Proof.
  intro H.
  destruct (find_shape _ _ _ _ _ H) as [df [pcs [Hs [Hg [_ [Hh Hr]]]]]].
  destruct (sorted_frame_props _ _ _ _ _ Hs) as [df0 [Hp0 [Hh0 [Hperm [_ [_ Hwf]]]]]].
  destruct (recurring_props _ _ _ _ _ Hs) as [_ [Hnd _]].
  unfold groupby_diff in Hg.
  destruct (col_index (header (recurring df)) "amount"); try discriminate.
  exists df0, df, pcs; repeat split; auto.
  eapply NoDup_map_inv; eauto.
Qed.


(** Each emitted row comes from its own data line of the file: no line
    gives two emitted rows, and the position in the file that each row
    remembers is that of a data line. *)
Theorem emitted_rows_distinct p c out :
  find_file fs p = Some c -> find_subscription_leeches fs parse_num parse_date p = Ok out ->
  NoDup (map idx (rows out)) /\
  (forall o, In o (rows out) -> idx o < length (csv_lines c)).
Proof.
  intros Hfs H.
  destruct (find_view _ _ H) as [df0 [df [pcs [Hp0 [Hs [_ [Hperm [_ [Hnd [Hg [_ Hr]]]]]]]]]]].
  rewrite Hr, map_map.
  split.
  - erewrite map_ext by (intro; apply idx_put_col).
    apply (nodup_map_filter (fun x => idx (fst x))).
    apply nodup_map_combine.
    destruct (recurring_props _ _ _ _ _ Hs) as [_ [Hnd' _]]; exact Hnd'.
  - intros o Ho; apply in_map_iff in Ho as [[r d] [<- Hin]].
    rewrite idx_put_col; simpl.
    apply filter_In in Hin as [Hin _]; apply in_combine_l in Hin.
    destruct (recurring_props _ _ _ _ _ Hs) as [_ [_ [_ Hsub]]].
    apply Hsub in Hin; apply (Permutation_in _ Hperm) in Hin.
    destruct (parsed_shape _ _ _ _ _ Hp0) as [Hidx _].
    rewrite <- (parsed_length _ _ _ Hfs Hp0).
    apply (in_map idx) in Hin; rewrite Hidx in Hin.
    apply in_seq in Hin; lia.
Qed.

Lemma emitted_from_recurring p out o :
  find_subscription_leeches fs parse_num parse_date p = Ok out -> In o (rows out) ->
  exists df0 df r z, parsed fs parse_num parse_date p = Ok df0 /\
    sorted_frame fs parse_num parse_date p = Ok df /\ header df = header df0 /\
    In r (rows df0) /\ length (cells r) = length (header df) /\
    header out = with_col (header df) "price_change" /\
    o = put_col (header df) "price_change" (VFloat z) r /\
    exists pre post, rows (recurring df) = pre ++ r :: post /\
      diff_one (header df) (rev pre ++ []) r = Ok (FVal z).
Proof.
  intros H Ho.
  destruct (find_view _ _ H) as [df0 [df [pcs [Hp0 [Hs [Hh0 [Hperm [Hwf [_ [Hg [Hh Hr]]]]]]]]]]].
  rewrite Hr in Ho; apply in_map_iff in Ho as [[r d] [<- Hin]].
  apply filter_In in Hin as [Hin Hpos]; simpl in Hpos.
  destruct d as [z|]; [|discriminate].
  destruct (diff_aux_in _ _ _ _ _ _ Hg Hin) as [pre [post [Hsplit Hd]]].
  apply in_combine_l in Hin.
  destruct (recurring_props _ _ _ _ _ Hs) as [_ [_ [_ Hsub]]].
  assert (Hr_df : In r (rows df)) by auto.
  exists df0, df, r, z; repeat split; auto.
  - eapply Permutation_in; eauto.
  - unfold wf_rows in Hwf; rewrite Forall_forall in Hwf; auto.
  - exists pre, post; auto.
Qed.

(** Rows whose merchant field is missing are never emitted: pandas'
    groupby leaves them out of every group, so their change is NaN. *)
Theorem no_hike_without_merchant p out :
  find_subscription_leeches fs parse_num parse_date p = Ok out ->
  forall o, In o (rows out) -> get (header out) "merchant" o <> VNA.
Proof.
  intros H o Ho Hm.
  destruct (emitted_from_recurring _ _ _ H Ho)
    as [df0 [df [r [z [_ [_ [_ [_ [Hlen [Hh [-> [pre [post [_ Hd]]]]]]]]]]]]]].
  rewrite Hh, get_put_col in Hm by (try discriminate; exact Hlen).
  rewrite diff_one_na in Hd by exact Hm; discriminate.
Qed.

(** An emitted row is a row of the file after the date conversion, with
    [price_change] set: every other column keeps the value it was read
    with, and the row keeps its index. *)
Theorem emitted_row_is_input_row p out df0 :
  find_subscription_leeches fs parse_num parse_date p = Ok out ->
  parsed fs parse_num parse_date p = Ok df0 ->
  forall o, In o (rows out) ->
  exists r, In r (rows df0) /\ idx o = idx r /\
    forall name, name <> "price_change" -> get (header out) name o = get (header df0) name r.
Proof.
  intros H Hp0 o Ho.
  destruct (emitted_from_recurring _ _ _ H Ho)
    as [df0' [df [r [z [Hp0' [_ [Hh0 [Hin [Hlen [Hh [-> _]]]]]]]]]]].
  rewrite Hp0 in Hp0'; injection Hp0' as <-.
  exists r; split; [exact Hin|split; [apply idx_put_col|]].
  intros name Hne.
  rewrite Hh, get_put_col by (auto; congruence); now rewrite Hh0.
Qed.

(** A merchant with [n] rows in the file gives at most [n - 1] emitted
    rows: the first row of its partition never counts. *)
Theorem hikes_per_merchant_bound p out df0 k :
  find_subscription_leeches fs parse_num parse_date p = Ok out ->
  parsed fs parse_num parse_date p = Ok df0 ->
  count_key (header out) k (rows out) <= count_key (header df0) k (rows df0) - 1.
Proof.
  intros H Hp0.
  destruct (find_view _ _ H)
    as [df0' [df [pcs [Hp0' [Hs [Hh0 [Hperm [Hwf [Hnd [Hg [Hh Hr]]]]]]]]]]].
  rewrite Hp0 in Hp0'; injection Hp0' as <-.
  set (h := header df) in *.
  set (R := rows (recurring df)) in *.
  set (P := fun x : row * float64 => value_eqb (get h "merchant" (fst x)) k).
  set (Q := fun x : row * float64 => float_gt0 (snd x)).
  assert (Hlen : length R = length pcs) by (symmetry; eapply diff_aux_length; eauto).
  destruct (recurring_props _ _ _ _ _ Hs) as [_ [_ [Hwfr Hsub]]].
  unfold wf_rows in Hwfr; rewrite Forall_forall in Hwfr.
  (* the emitted rows of [k] *)
  assert (E1 : count_key (header out) k (rows out) = length (filter P (filter Q (combine R pcs)))).
  { unfold count_key, merchant_partition; rewrite Hr, Hh, filter_map_swap, length_map.
    f_equal; apply filter_ext_in; intros [r d] Hin; unfold P; simpl.
    apply filter_In in Hin as [Hin _]; apply in_combine_l in Hin.
    rewrite get_put_col; auto; discriminate. }
  (* the recurring rows of [k] *)
  assert (E2 : length (filter P (combine R pcs)) = length (merchant_partition h k R)).
  { unfold merchant_partition.
    rewrite <- (map_fst_filter_combine (fun r => value_eqb (get h "merchant" r) k) R pcs Hlen).
    now rewrite length_map. }
  assert (E3 : length (merchant_partition h k R) <= count_key (header df0) k (rows df0)).
  { unfold R; rewrite recurring_rows; fold h.
    rewrite (partition_filter_key h _ (fun k => Nat.leb 2 (count_key h k (rows df)))).
    unfold count_key, merchant_partition; rewrite <- Hh0; fold h.
    rewrite <- (Permutation_length (permutation_filter _ _ _ Hperm)).
    destruct (Nat.leb _ _); simpl; lia. }
  assert (Hfirst : match filter P (combine R pcs) with [] => True | x :: _ => Q x = false end).
  { destruct (filter P (combine R pcs)) as [|[f d] rest] eqn:EF; auto.
    assert (Hpart : merchant_partition h k R = f :: map fst rest).
    { unfold merchant_partition.
      rewrite <- (map_fst_filter_combine (fun r => value_eqb (get h "merchant" r) k) R pcs Hlen).
      fold P; rewrite EF; reflexivity. }
    assert (Hf : In f R)
      by (assert (Hf : In f (merchant_partition h k R)) by (rewrite Hpart; now left);
          unfold merchant_partition in Hf; apply filter_In in Hf; tauto).
    assert (Hfd : In (f, d) (combine R pcs))
      by (assert (Hfd : In (f, d) (filter P (combine R pcs))) by (rewrite EF; now left);
          apply filter_In in Hfd; tauto).
    destruct (in_split _ _ Hf) as [pre [post Hsplit]].
    destruct (diff_aux_at _ _ _ _ _ _ _ Hg Hsplit) as [d' [Hd Hin]].
    rewrite (first_row_nan h k R f (map fst rest) pre post Hnd Hpart Hsplit) in Hd.
    injection Hd as <-.
    rewrite (combine_pair_unique _ _ _ _ _ Hnd Hfd Hin); reflexivity. }
  pose proof (length_filter_first_excluded P Q _ Hfirst).
  lia.
Qed.

(** The message for a missing column depends on the first line that needs
    it: a file that is read and has no [date] column gives ['date']
    (line 14); a file whose dates are read but that has no [merchant]
    column gives ['merchant'] (line 15); an empty file, with no header,
    gives pandas' [EmptyDataError] message. *)
Theorem missing_column_messages p c :
  find_file fs p = Some c ->
  ((exists df1, read_csv fs parse_num p = Ok df1) ->
   ~ In "date" (csv_header c) ->
   analyze_transactions fs parse_num parse_date show_num p = "Error: 'date'") /\
  (forall df0, parsed fs parse_num parse_date p = Ok df0 ->
   ~ In "merchant" (csv_header c) ->
   analyze_transactions fs parse_num parse_date show_num p = "Error: 'merchant'") /\
  (csv_header c = [] ->
   analyze_transactions fs parse_num parse_date show_num p
     = "Error: No columns to parse from file").
Proof.
  intro Hfs; split; [|split].
  - intros [df1 Hr] Hnd.
    destruct (read_csv_file _ _ _ _ Hr) as [c' [Hc' Hp]].
    rewrite Hfs in Hc'; injection Hc' as <-.
    destruct (parse_csv_shape _ _ _ Hp) as [Hh _].
    assert (Hnd' : ~ In "date" (header df1)).
    { rewrite Hh, (required_in_column_names _ "date"); [exact Hnd|simpl; tauto]. }
    assert (Hc : col_index (header df1) "date" = None).
    { destruct (col_index (header df1) "date") eqn:E; auto.
      exfalso; apply Hnd'; eapply col_index_some_in; eauto. }
    unfold analyze_transactions, find_subscription_leeches, sorted_frame, parsed.
    rewrite Hr; simpl; unfold convert_dates; rewrite Hc; reflexivity.
  - intros df0 Hp0 Hnm.
    assert (Hnm' : ~ In "merchant" (header df0)).
    { rewrite (parsed_header _ _ _ _ _ _ Hfs Hp0).
      rewrite (required_in_column_names _ "merchant"); [exact Hnm|simpl; tauto]. }
    assert (Hc : col_index (header df0) "merchant" = None).
    { destruct (col_index (header df0) "merchant") eqn:E; auto.
      exfalso; apply Hnm'; eapply col_index_some_in; eauto. }
    unfold analyze_transactions, find_subscription_leeches, sorted_frame.
    rewrite Hp0; simpl; unfold sort_values; rewrite Hc; reflexivity.
  - intro He.
    unfold analyze_transactions, find_subscription_leeches, sorted_frame, parsed, read_csv.
    rewrite Hfs; unfold parse_csv; rewrite He; reflexivity.
Qed.

(** A path with no file behind it gives the message of the
    [FileNotFoundError] that [open] raises, which names the path after
    [os.path.expanduser], in Python's [repr]. *)
Theorem missing_file_message p :
  find_file fs p = None ->
  analyze_transactions fs parse_num parse_date show_num p
    = ("Error: [Errno 2] No such file or directory: " ++ py_repr (expand_user fs p))%string.
Proof.
  intro H; unfold analyze_transactions, find_subscription_leeches, sorted_frame, parsed, read_csv.
  rewrite H; reflexivity.
Qed.

End Extras.

(** * Properties of the page *)

Section PageFacts.

Variable fresh : store -> string.
Variable build : string -> string -> store -> option string * store.
Variable kickoff : string -> list string -> store -> crew_outcome * store.

Lemma exists_file_remove path st : exists_file path (remove_file path st) = false.
Proof.
  unfold exists_file, remove_file; induction st as [|[n c] st IH]; simpl; auto.
  destruct (String.eqb_spec n path) as [->|Hne]; simpl; auto.
  apply String.eqb_neq in Hne; now rewrite Hne.
Qed.

Lemma remove_absent path st : exists_file path st = false -> remove_file path st = st.
Proof.
  unfold exists_file, remove_file; induction st as [|[n c] st IH]; simpl; auto.
  destruct (String.eqb n path); simpl; [discriminate|].
  intro H; f_equal; auto.
Qed.

(** The [finally] of lines 122-124 on a store where the temporary file was
    written on top of [st]. *)
Lemma finally_suffix t n b st :
  exists_file t st = false ->
  exists new, (if exists_file t (n ++ (t, b) :: st)
               then remove_file t (n ++ (t, b) :: st) else n ++ (t, b) :: st) = new ++ st.
Proof.
  intro H.
  destruct (exists_file t (n ++ (t, b) :: st)).
  - exists (remove_file t n); unfold remove_file at 1; rewrite filter_app; simpl.
    rewrite String.eqb_refl; simpl; fold (remove_file t st); now rewrite remove_absent.
  - exists (n ++ [(t, b)]); now rewrite <- app_assoc.
Qed.

Lemma crew_run_removes key t st : exists_file t (snd (crew_run build kickoff key t st)) = false.
Proof.
  unfold crew_run; destruct (build key t st) as [[m|] s1].
  - simpl; destruct (exists_file t s1) eqn:E; auto using exists_file_remove.
  - destruct (kickoff key [task1 t; task2] s1) as [out s2]; simpl.
    destruct (exists_file t s2) eqn:E; auto using exists_file_remove.
Qed.

Lemma crew_run_suffix key t b st :
  (forall k t s, exists new, snd (build k t s) = new ++ s) ->
  (forall k ts s, exists new, snd (kickoff k ts s) = new ++ s) ->
  exists_file t st = false ->
  exists new, snd (crew_run build kickoff key t ((t, b) :: st)) = new ++ st.
Proof.
  intros Hb Hk Ht; unfold crew_run.
  destruct (Hb key t ((t, b) :: st)) as [n1 E1].
  destruct (build key t ((t, b) :: st)) as [err s1]; simpl in E1; subst s1.
  destruct err as [m|].
  - simpl; apply finally_suffix; exact Ht.
  - destruct (Hk key [task1 t; task2] (n1 ++ (t, b) :: st)) as [n2 E2].
    destruct (kickoff key [task1 t; task2] (n1 ++ (t, b) :: st)) as [out s2].
    simpl in E2; subst s2; simpl.
    rewrite app_assoc; apply finally_suffix; exact Ht.
Qed.

Lemma crew_run_events key t st :
  ~ In KeyInput (fst (crew_run build kickoff key t st)) /\
  ~ In NoKeyWarning (fst (crew_run build kickoff key t st)).
Proof.
  unfold crew_run; destruct (build key t st) as [[m|] s1].
  - simpl; split; intro H; intuition discriminate.
  - destruct (kickoff key [task1 t; task2] s1) as [[raw|m] s2]; simpl;
      split; intro H; intuition discriminate.
Qed.

(** The temporary file of a run with an uploaded file and a key: the run
    that presses the button deletes it in its [finally], whatever the
    crew does; a run without the button press leaves it on disk with the
    uploaded bytes ([delete=False]). *)
Theorem temp_file_after_run i st bytes :
  secrets_file i = true -> upload i = Some bytes -> fst (key_of i) <> ""%string ->
  (pressed i = true ->
   exists_file (fresh st) (snd (page_run fresh build kickoff i st)) = false) /\
  (pressed i = false ->
   snd (page_run fresh build kickoff i st) = (fresh st, bytes) :: st).
Proof.
  intros Hs Hup Hkey.
  unfold page_run; rewrite Hs; simpl.
  destruct (key_of i) as [key ke]; simpl in Hkey.
  rewrite Hup.
  destruct (String.eqb_spec key "") as [E|_]; [contradiction|].
  split; intro Hp; rewrite Hp; [|reflexivity].
  pose proof (crew_run_removes key (fresh st) ((fresh st, bytes) :: st)) as H.
  destruct (crew_run build kickoff key (fresh st) ((fresh st, bytes) :: st)); exact H.
Qed.

Lemma page_run_grows i st :
  (forall k t s, exists new, snd (build k t s) = new ++ s) ->
  (forall k ts s, exists new, snd (kickoff k ts s) = new ++ s) ->
  exists_file (fresh st) st = false ->
  exists new, snd (page_run fresh build kickoff i st) = new ++ st /\
    (secrets_file i && match upload i with
                       | Some _ => negb (String.eqb (fst (key_of i)) "") && negb (pressed i)
                       | None => false
                       end = true -> new <> []).
Proof.
  intros Hb Hk Hf; unfold page_run.
  destruct (secrets_file i); simpl; [|exists []; split; [reflexivity|discriminate]].
  destruct (key_of i) as [key ke]; simpl.
  destruct (upload i) as [bytes|]; [|exists []; split; [reflexivity|discriminate]].
  destruct (String.eqb key ""); simpl; [exists []; split; [reflexivity|discriminate]|].
  destruct (pressed i); simpl.
  - destruct (crew_run_suffix key (fresh st) bytes st Hb Hk Hf) as [n E].
    destruct (crew_run build kickoff key (fresh st) ((fresh st, bytes) :: st)).
    exists n; split; [exact E|discriminate].
  - exists [(fresh st, bytes)]; split; [reflexivity|discriminate].
Qed.

(** Over successive runs of the script, no file on disk is deleted but the
    temporary file of the run itself, and the files grow by one at least for
    every run that has an uploaded file and a key but no button press:
    those temporary files are never deleted. *)
Theorem temp_files_accumulate ins st :
  (forall st', exists_file (fresh st') st' = false) ->
  (forall k t s, exists new, snd (build k t s) = new ++ s) ->
  (forall k ts s, exists new, snd (kickoff k ts s) = new ++ s) ->
  (exists new, snd (page_runs fresh build kickoff ins st) = new ++ st) /\
  length st + length (filter (fun i => secrets_file i &&
                                       match upload i with
                                       | Some _ => negb (String.eqb (fst (key_of i)) "")
                                                   && negb (pressed i)
                                       | None => false
                                       end) ins)
    <= length (snd (page_runs fresh build kickoff ins st)).
Proof.
  intros Hfresh Hb Hk; revert st; induction ins as [|i ins IH]; intro st; simpl.
  - split; [exists []; reflexivity|lia].
  - destruct (page_run_grows i st Hb Hk (Hfresh st)) as [n1 [E1 Hc]].
    destruct (page_run fresh build kickoff i st) as [ev st'] eqn:E; simpl in E1; subst st'.
    destruct (page_runs fresh build kickoff ins (n1 ++ st)) as [evs st''] eqn:E2; simpl.
    specialize (IH (n1 ++ st)); rewrite E2 in IH; simpl in IH.
    destruct IH as [[n2 E3] Hl]; split.
    + exists (n2 ++ n1); rewrite E3, app_assoc; reflexivity.
    + rewrite length_app in Hl.
      destruct (secrets_file i && _); simpl.
      * assert (n1 <> []) by auto; destruct n1; [contradiction|simpl in Hl; lia].
      * lia.
Qed.

(** Without a key (no secret or an empty one, and nothing typed) the page
    shows the warning and the tip, writes no file and never starts the
    crew. With a non-empty secret, the key field is not shown and no
    warning either. *)
Theorem no_key_no_work i st :
  secrets_file i = true ->
  (secret_key i = None \/ secret_key i = Some ""%string) -> typed_key i = ""%string ->
  snd (page_run fresh build kickoff i st) = st /\
  In NoKeyWarning (fst (page_run fresh build kickoff i st)) /\
  In TipInfo (fst (page_run fresh build kickoff i st)) /\
  ~ In StatusBox (fst (page_run fresh build kickoff i st)).
Proof.
  intros Hsf Hs Ht.
  assert (Hk : key_of i = (""%string, [KeyInput]))
    by (unfold key_of; destruct Hs as [-> | ->]; simpl; now rewrite Ht).
  unfold page_run; rewrite Hsf, Hk; simpl.
  destruct (upload i); simpl; repeat split; auto 20;
    intro H; repeat (destruct H as [H|H]; [discriminate|]); exact H.
Qed.

Theorem secret_key_used i st k :
  secret_key i = Some k -> k <> ""%string ->
  fst (key_of i) = k /\
  ~ In KeyInput (fst (page_run fresh build kickoff i st)) /\
  ~ In NoKeyWarning (fst (page_run fresh build kickoff i st)).
Proof.
  intros Hs Hne.
  assert (Hk : key_of i = (k, [])).
  { unfold key_of; rewrite Hs.
    destruct (String.eqb_spec k "") as [E|_]; [contradiction|reflexivity]. }
  rewrite Hk; split; [reflexivity|].
  unfold page_run; destruct (secrets_file i); simpl;
    [|split; intro H; intuition discriminate].
  rewrite Hk; simpl.
  destruct (String.eqb_spec k "") as [E|_]; [contradiction|]; simpl.
  destruct (upload i) as [bytes|]; [destruct (pressed i)|].
  - destruct (crew_run_events k (fresh st) ((fresh st, bytes) :: st)) as [H1 H2].
    destruct (crew_run build kickoff k (fresh st) ((fresh st, bytes) :: st)) as [ev st2].
    simpl in H1, H2.
    split; intro H; simpl in H; rewrite ?in_app_iff in H; simpl in H;
      intuition discriminate.
  - split; intro H; simpl in H; rewrite ?in_app_iff in H; simpl in H; intuition discriminate.
  - split; intro H; simpl in H; rewrite ?in_app_iff in H; simpl in H; intuition discriminate.
Qed.

(** Without a secrets file, [st.secrets.get] raises before the key field:
    the page shows the exception after the sidebar header, and neither the
    key field, the warning nor the uploader; no file is written. *)
Theorem no_secrets_file_crash i st :
  secrets_file i = false ->
  In SecretsError (fst (page_run fresh build kickoff i st)) /\
  ~ In KeyInput (fst (page_run fresh build kickoff i st)) /\
  ~ In NoKeyWarning (fst (page_run fresh build kickoff i st)) /\
  ~ In Uploader (fst (page_run fresh build kickoff i st)) /\
  snd (page_run fresh build kickoff i st) = st.
Proof.
  intro Hs; unfold page_run; rewrite Hs; simpl.
  repeat split; auto 10; intro H; intuition discriminate.
Qed.

End PageFacts.
(** * Runs on the demo files *)

Definition demo_csv (p : string) : csv :=
  match find_file Demo.files p with Some c => c | None => mk_csv [] [] end.

Definition demo_read (p : string) : frame :=
  match read_csv Demo.files Demo.num p with Ok d => d | Err _ => mk_frame [] [] end.

Definition demo_parsed (p : string) : frame :=
  match parsed Demo.files Demo.num Demo.date p with Ok d => d | Err _ => mk_frame [] [] end.

Definition demo_sorted (p : string) : frame :=
  match sorted_frame Demo.files Demo.num Demo.date p with Ok d => d | Err _ => mk_frame [] [] end.

Definition demo_pcs (p : string) : list (row * float64) :=
  match price_changes Demo.files Demo.num Demo.date p with Ok l => l | Err _ => [] end.

Definition demo_out (p : string) : frame :=
  match find_subscription_leeches Demo.files Demo.num Demo.date p with
  | Ok d => d
  | Err _ => mk_frame [] []
  end.

Definition demo_row (f : frame) (n : nat) : row := nth n (rows f) (mk_row 0 []).

Definition demo_run (p : string) : string :=
  analyze_transactions Demo.files Demo.num Demo.date Demo.numbers p.


(** A run of the page: temporary names longer than every name on disk, an
    LLM set up without error, and a crew that answers with a fixed text and
    leaves its lock file on disk. *)
Definition demo_fresh (st : store) : string :=
  fold_right (fun e acc => (fst e ++ acc)%string) "tmp.csv" st.

Definition demo_build (key tmp_path : string) (st : store) : option string * store := (None, st).

Definition demo_kickoff (key : string) (tasks : list string) (st : store)
    : crew_outcome * store :=
  (Done "Subject: price increase",
   if exists_file "crew.lock" st then st else ("crew.lock", "") :: st).

Definition demo_page (secret : option string) (typed : string) (up : option string)
    (press : bool) : page_input :=
  mk_page_input true secret typed up press.

(** The same widgets on a deployment without a secrets file. *)
Definition demo_page_no_secrets (secret : option string) (typed : string)
    (up : option string) (press : bool) : page_input :=
  mk_page_input false secret typed up press.

(** Four runs: two keep their upload, one presses the button, one has no
    key. *)
Definition demo_runs : list page_input :=
  [demo_page (Some "key") "" (Some "a") false; demo_page (Some "key") "" (Some "b") true;
   demo_page None "" (Some "c") false; demo_page None "typed" (Some "d") false].

Lemma string_length_app (s1 s2 : string) :
  String.length (s1 ++ s2) = String.length s1 + String.length s2.
Proof. induction s1; simpl; auto. Qed.

Lemma demo_fresh_new st : exists_file (demo_fresh st) st = false.
Proof.
  enough (H : forall n, In n (map fst st) -> String.length n < String.length (demo_fresh st)).
  { destruct (exists_file (demo_fresh st) st) eqn:E; auto.
    unfold exists_file in E; apply existsb_exists in E as [e [He Eq]].
    apply String.eqb_eq in Eq.
    specialize (H (fst e) (in_map fst _ _ He)); rewrite Eq in H; lia. }
  induction st as [|[n c] st IH]; simpl; [tauto|].
  rewrite string_length_app.
  assert (0 < String.length (demo_fresh st))
    by (clear IH; induction st as [|e st IH']; simpl; [lia|rewrite string_length_app; lia]).
  intros m [<-|Hm]; [lia|specialize (IH _ Hm); lia].
Qed.

Lemma demo_build_adds k t s : exists new, snd (demo_build k t s) = new ++ s.
Proof. exists []; reflexivity. Qed.

Lemma demo_kickoff_adds k ts s : exists new, snd (demo_kickoff k ts s) = new ++ s.
Proof.
  unfold demo_kickoff; simpl; destruct (exists_file "crew.lock" s).
  - exists []; reflexivity.
  - exists [("crew.lock", "")]; reflexivity.
Qed.




(** C2 on Scenario A: merchant B has one row, merchant A three. *)
Lemma single_merchant_and_first_row_excluded_witness :
  find_subscription_leeches Demo.files Demo.num Demo.date "a.csv" = Ok (demo_out "a.csv") /\
  parsed Demo.files Demo.num Demo.date "a.csv" = Ok (demo_parsed "a.csv") /\
  sorted_frame Demo.files Demo.num Demo.date "a.csv" = Ok (demo_sorted "a.csv") /\
  count_key (header (demo_parsed "a.csv")) (VStr "B") (rows (demo_parsed "a.csv")) = 1 /\
  (forall o, In o (rows (demo_out "a.csv")) ->
     get (header (demo_out "a.csv")) "merchant" o <> VStr "B") /\
  merchant_partition (header (demo_sorted "a.csv")) (VStr "A") (rows (demo_sorted "a.csv"))
    = demo_row (demo_sorted "a.csv") 0
      :: tl (merchant_partition (header (demo_sorted "a.csv")) (VStr "A")
               (rows (demo_sorted "a.csv"))) /\
  tl (merchant_partition (header (demo_sorted "a.csv")) (VStr "A")
        (rows (demo_sorted "a.csv"))) <> [] /\
  In (demo_row (demo_sorted "a.csv") 0) (rows (recurring (demo_sorted "a.csv"))) /\
  (exists pcl, price_changes Demo.files Demo.num Demo.date "a.csv" = Ok pcl /\
     In (demo_row (demo_sorted "a.csv") 0, FNaN) pcl) /\
  (forall o, In o (rows (demo_out "a.csv")) -> idx o <> idx (demo_row (demo_sorted "a.csv") 0)).
Proof.
  assert (Hf : find_subscription_leeches Demo.files Demo.num Demo.date "a.csv"
               = Ok (demo_out "a.csv")) by (vm_compute; reflexivity).
  assert (Hp : parsed Demo.files Demo.num Demo.date "a.csv" = Ok (demo_parsed "a.csv"))
    by (vm_compute; reflexivity).
  assert (Hs : sorted_frame Demo.files Demo.num Demo.date "a.csv" = Ok (demo_sorted "a.csv"))
    by (vm_compute; reflexivity).
  assert (Hc : count_key (header (demo_parsed "a.csv")) (VStr "B") (rows (demo_parsed "a.csv"))
               = 1) by (vm_compute; reflexivity).
  assert (Hpart : merchant_partition (header (demo_sorted "a.csv")) (VStr "A")
                    (rows (demo_sorted "a.csv"))
                  = demo_row (demo_sorted "a.csv") 0
                    :: tl (merchant_partition (header (demo_sorted "a.csv")) (VStr "A")
                             (rows (demo_sorted "a.csv")))) by (vm_compute; reflexivity).
  assert (Hne : tl (merchant_partition (header (demo_sorted "a.csv")) (VStr "A")
                      (rows (demo_sorted "a.csv"))) <> []) by (vm_compute; discriminate).
  destruct (single_merchant_and_first_row_excluded Demo.files Demo.num Demo.date "a.csv"
              _ _ _ (VStr "B") Hf Hp Hs) as [HB _].
  destruct (single_merchant_and_first_row_excluded Demo.files Demo.num Demo.date "a.csv"
              _ _ _ (VStr "A") Hf Hp Hs) as [_ HA].
  destruct (HA _ _ Hpart Hne) as [H1 [H2 H3]].
  repeat (split; [assumption|]); split; [exact (HB Hc)|].
  repeat (split; [assumption|]); exact H3.
Defined.

(** C3 on a file whose two merchants are listed out of order. *)
Lemma hikes_in_merchant_date_order_witness :
  find_subscription_leeches Demo.files Demo.num Demo.date "ab.csv" = Ok (demo_out "ab.csv") /\
  length (rows (demo_out "ab.csv")) = 2 /\
  StronglySorted (row_before (header (demo_out "ab.csv"))) (rows (demo_out "ab.csv")).
Proof.
  assert (Hf : find_subscription_leeches Demo.files Demo.num Demo.date "ab.csv"
               = Ok (demo_out "ab.csv")) by (vm_compute; reflexivity).
  split; [exact Hf|split; [vm_compute; reflexivity|]].
  exact (hikes_in_merchant_date_order Demo.files Demo.num Demo.date "ab.csv" _ Hf).
Defined.

(** C4 on a file without the [amount] column. *)
Lemma missing_column_error_string_witness :
  find_file Demo.files "noamount.csv" = Some (demo_csv "noamount.csv") /\
  In "amount" ["date"; "merchant"; "amount"] /\
  ~ In "amount" (csv_header (demo_csv "noamount.csv")) /\
  parsed Demo.files Demo.num Demo.date "noamount.csv" = Ok (demo_parsed "noamount.csv") /\
  In "date" (csv_header (demo_csv "noamount.csv")) /\
  In "merchant" (csv_header (demo_csv "noamount.csv")) /\
  (exists e, find_subscription_leeches Demo.files Demo.num Demo.date "noamount.csv" = Err e /\
     demo_run "noamount.csv" = ("Error: " ++ str_exn e)%string) /\
  find_subscription_leeches Demo.files Demo.num Demo.date "noamount.csv"
    = Err (KeyError "Column not found: amount") /\
  demo_run "noamount.csv" = ("Error: " ++ str_exn (KeyError "Column not found: amount"))%string.
Proof.
  assert (Hfs : find_file Demo.files "noamount.csv" = Some (demo_csv "noamount.csv"))
    by (vm_compute; reflexivity).
  assert (Hin : In "amount" ["date"; "merchant"; "amount"]) by (simpl; auto).
  assert (Hni : ~ In "amount" (csv_header (demo_csv "noamount.csv")))
    by (vm_compute; intros [H|[H|[]]]; discriminate).
  assert (Hp : parsed Demo.files Demo.num Demo.date "noamount.csv"
               = Ok (demo_parsed "noamount.csv")) by (vm_compute; reflexivity).
  assert (Hd : In "date" (csv_header (demo_csv "noamount.csv"))) by (vm_compute; auto).
  assert (Hm : In "merchant" (csv_header (demo_csv "noamount.csv"))) by (vm_compute; auto).
  destruct (missing_column_error_string Demo.files Demo.num Demo.date Demo.numbers
              "noamount.csv" _ Hfs) as [Ha Hb].
  destruct (Hb _ Hp Hd Hm Hni) as [Hb1 Hb2].
  repeat (split; [assumption|]).
  split; [exact (Ha _ Hin Hni)|split; assumption].
Defined.

(** C4: the missing column is a [KeyError] that comes back as text. *)
Lemma missing_column_error_string_counterexample :
  find_subscription_leeches Demo.files Demo.num Demo.date "noamount.csv"
    = Err (KeyError "Column not found: amount") /\
  demo_run "noamount.csv" = "Error: 'Column not found: amount'".
Proof. split; vm_compute; reflexivity. Qed.



(** C6 on a file with the header line only. *)
Lemma empty_input_no_findings_witness :
  find_file Demo.files "empty.csv" = Some (demo_csv "empty.csv") /\
  csv_lines (demo_csv "empty.csv") = [] /\
  In "date" (csv_header (demo_csv "empty.csv")) /\
  In "merchant" (csv_header (demo_csv "empty.csv")) /\
  In "amount" (csv_header (demo_csv "empty.csv")) /\
  find_subscription_leeches Demo.files Demo.num Demo.date "empty.csv"
    = Ok (mk_frame (with_col (column_names (csv_header (demo_csv "empty.csv"))) "price_change")
            []) /\
  demo_run "empty.csv" = no_hikes /\
  (forall msg, demo_run "empty.csv" <> ("Error: " ++ msg)%string).
Proof.
  assert (H1 : find_file Demo.files "empty.csv" = Some (demo_csv "empty.csv"))
    by (vm_compute; reflexivity).
  assert (H2 : csv_lines (demo_csv "empty.csv") = []) by (vm_compute; reflexivity).
  assert (Hd : In "date" (csv_header (demo_csv "empty.csv"))) by (vm_compute; auto).
  assert (Hm : In "merchant" (csv_header (demo_csv "empty.csv"))) by (vm_compute; auto).
  assert (Ha : In "amount" (csv_header (demo_csv "empty.csv"))) by (vm_compute; auto).
  repeat (split; [assumption|]).
  exact (empty_input_no_findings Demo.files Demo.num Demo.date Demo.numbers "empty.csv" _
           H1 H2 Hd Hm Ha).
Defined.

(** C7 on a file with an extra [note] column. *)
Lemma output_record_keys_witness :
  find_file Demo.files "extra.csv" = Some (demo_csv "extra.csv") /\
  find_subscription_leeches Demo.files Demo.num Demo.date "extra.csv" = Ok (demo_out "extra.csv") /\
  header (demo_out "extra.csv")
    = with_col (column_names (csv_header (demo_csv "extra.csv"))) "price_change" /\
  (forall o, In o (rows (demo_out "extra.csv")) ->
     exists kv, record_json (header (demo_out "extra.csv")) o = JObj kv /\
       map fst kv = header (demo_out "extra.csv")).
Proof.
  assert (H1 : find_file Demo.files "extra.csv" = Some (demo_csv "extra.csv"))
    by (vm_compute; reflexivity).
  assert (H2 : find_subscription_leeches Demo.files Demo.num Demo.date "extra.csv"
               = Ok (demo_out "extra.csv")) by (vm_compute; reflexivity).
  split; [exact H1|split; [exact H2|]].
  exact (output_record_keys Demo.files Demo.num Demo.date "extra.csv" _ _ H1 H2).
Defined.

(** C7: the record keeps the extra columns, under pandas' names for an
    empty and a repeated header field, and has none of the fields
    [previous_amount], [new_amount], [delta] or [occurred_at]. *)
Lemma output_record_keys_counterexample :
  csv_header (demo_csv "renamed.csv") = ["date"; "merchant"; "amount"; "note"; ""; "note"] /\
  to_json_records (demo_out "renamed.csv")
    = JArr [JObj [("date", JNum 20240201); ("merchant", JStr "A"); ("amount", JNum 12);
                  ("note", JStr "y"); ("Unnamed: 4", JStr "q"); ("note.1", JStr "v");
                  ("price_change", JFloat 2)]].
Proof. split; vm_compute; reflexivity. Qed.



(** C9 on Scenario A: the first row of merchant A. *)
Lemma first_row_price_change_nan_witness :
  sorted_frame Demo.files Demo.num Demo.date "a.csv" = Ok (demo_sorted "a.csv") /\
  merchant_partition (header (demo_sorted "a.csv")) (VStr "A")
    (rows (recurring (demo_sorted "a.csv")))
    = demo_row (recurring (demo_sorted "a.csv")) 0
      :: tl (merchant_partition (header (demo_sorted "a.csv")) (VStr "A")
               (rows (recurring (demo_sorted "a.csv")))) /\
  price_changes Demo.files Demo.num Demo.date "a.csv" = Ok (demo_pcs "a.csv") /\
  In (demo_row (recurring (demo_sorted "a.csv")) 0, FNaN) (demo_pcs "a.csv") /\
  float_gt0 FNaN = false /\ float_to_value FNaN = VNA.
Proof.
  assert (H1 : sorted_frame Demo.files Demo.num Demo.date "a.csv" = Ok (demo_sorted "a.csv"))
    by (vm_compute; reflexivity).
  assert (H2 : merchant_partition (header (demo_sorted "a.csv")) (VStr "A")
                 (rows (recurring (demo_sorted "a.csv")))
               = demo_row (recurring (demo_sorted "a.csv")) 0
                 :: tl (merchant_partition (header (demo_sorted "a.csv")) (VStr "A")
                          (rows (recurring (demo_sorted "a.csv")))))
    by (vm_compute; reflexivity).
  assert (H3 : price_changes Demo.files Demo.num Demo.date "a.csv" = Ok (demo_pcs "a.csv"))
    by (vm_compute; reflexivity).
  split; [exact H1|split; [exact H2|split; [exact H3|]]].
  exact (first_row_price_change_nan Demo.files Demo.num Demo.date "a.csv" _ _ _ _ _ H1 H2 H3).
Defined.

(** C9: the first row of merchant A carries the float64 NaN, and the mask
    [price_change > 0] is computed on it as on the other rows. *)
Lemma first_row_price_change_nan_counterexample :
  exists r0 rest,
    price_changes Demo.files Demo.num Demo.date "a.csv" = Ok ((r0, FNaN) :: rest) /\
    map float_gt0 (FNaN :: map snd rest) = [false; true; false].
Proof.
  exists (demo_row (recurring (demo_sorted "a.csv")) 0), (tl (demo_pcs "a.csv")).
  split; vm_compute; reflexivity.
Qed.

(** Extra properties on the demo files and on runs of the page. *)


(** The two hikes of [index.csv], a file whose first field is an index
    column that repeats the label 5, come from two different lines. *)
Lemma emitted_rows_distinct_witness :
  find_file Demo.files "index.csv" = Some (demo_csv "index.csv") /\
  find_subscription_leeches Demo.files Demo.num Demo.date "index.csv"
    = Ok (demo_out "index.csv") /\
  map idx (rows (demo_out "index.csv")) = [1; 3] /\
  NoDup (map idx (rows (demo_out "index.csv"))) /\
  (forall o, In o (rows (demo_out "index.csv")) ->
     idx o < length (csv_lines (demo_csv "index.csv"))).
Proof.
  assert (H1 : find_file Demo.files "index.csv" = Some (demo_csv "index.csv"))
    by (vm_compute; reflexivity).
  assert (H2 : find_subscription_leeches Demo.files Demo.num Demo.date "index.csv"
               = Ok (demo_out "index.csv")) by (vm_compute; reflexivity).
  split; [exact H1|split; [exact H2|split; [vm_compute; reflexivity|]]].
  exact (emitted_rows_distinct _ _ _ _ _ _ H1 H2).
Defined.

(** In [namerchant.csv] two rows have an empty merchant field: only the
    hike of merchant A is emitted. *)
Lemma no_hike_without_merchant_witness :
  find_subscription_leeches Demo.files Demo.num Demo.date "namerchant.csv"
    = Ok (demo_out "namerchant.csv") /\
  map (get (header (demo_parsed "namerchant.csv")) "merchant") (rows (demo_parsed "namerchant.csv"))
    = [VNA; VNA; VStr "A"; VStr "A"] /\
  length (rows (demo_out "namerchant.csv")) = 1 /\
  (forall o, In o (rows (demo_out "namerchant.csv")) ->
     get (header (demo_out "namerchant.csv")) "merchant" o <> VNA).
Proof.
  assert (H1 : find_subscription_leeches Demo.files Demo.num Demo.date "namerchant.csv"
               = Ok (demo_out "namerchant.csv")) by (vm_compute; reflexivity).
  split; [exact H1|split; [vm_compute; reflexivity|split; [vm_compute; reflexivity|]]].
  exact (no_hike_without_merchant _ _ _ _ _ H1).
Defined.

Lemma emitted_row_is_input_row_witness :
  find_subscription_leeches Demo.files Demo.num Demo.date "ab.csv" = Ok (demo_out "ab.csv") /\
  parsed Demo.files Demo.num Demo.date "ab.csv" = Ok (demo_parsed "ab.csv") /\
  length (rows (demo_out "ab.csv")) = 2 /\
  (forall o, In o (rows (demo_out "ab.csv")) ->
   exists r, In r (rows (demo_parsed "ab.csv")) /\ idx o = idx r /\
     forall name, name <> "price_change" ->
       get (header (demo_out "ab.csv")) name o = get (header (demo_parsed "ab.csv")) name r).
Proof.
  assert (H1 : find_subscription_leeches Demo.files Demo.num Demo.date "ab.csv"
               = Ok (demo_out "ab.csv")) by (vm_compute; reflexivity).
  assert (H2 : parsed Demo.files Demo.num Demo.date "ab.csv" = Ok (demo_parsed "ab.csv"))
    by (vm_compute; reflexivity).
  split; [exact H1|split; [exact H2|split; [vm_compute; reflexivity|]]].
  exact (emitted_row_is_input_row _ _ _ _ _ _ H1 H2).
Defined.

(** Merchant A has three rows in Scenario A: at most two hikes. *)
Lemma hikes_per_merchant_bound_witness :
  find_subscription_leeches Demo.files Demo.num Demo.date "a.csv" = Ok (demo_out "a.csv") /\
  parsed Demo.files Demo.num Demo.date "a.csv" = Ok (demo_parsed "a.csv") /\
  count_key (header (demo_parsed "a.csv")) (VStr "A") (rows (demo_parsed "a.csv")) = 3 /\
  count_key (header (demo_out "a.csv")) (VStr "A") (rows (demo_out "a.csv"))
    <= count_key (header (demo_parsed "a.csv")) (VStr "A") (rows (demo_parsed "a.csv")) - 1.
Proof.
  assert (H1 : find_subscription_leeches Demo.files Demo.num Demo.date "a.csv"
               = Ok (demo_out "a.csv")) by (vm_compute; reflexivity).
  assert (H2 : parsed Demo.files Demo.num Demo.date "a.csv" = Ok (demo_parsed "a.csv"))
    by (vm_compute; reflexivity).
  split; [exact H1|split; [exact H2|split; [vm_compute; reflexivity|]]].
  exact (hikes_per_merchant_bound _ _ _ _ _ _ _ H1 H2).
Defined.

(** A file without [date], a file without [merchant] and an empty file. *)
Lemma missing_column_messages_witness :
  find_file Demo.files "nodate.csv" = Some (demo_csv "nodate.csv") /\
  read_csv Demo.files Demo.num "nodate.csv" = Ok (demo_read "nodate.csv") /\
  ~ In "date" (csv_header (demo_csv "nodate.csv")) /\
  demo_run "nodate.csv" = "Error: 'date'" /\
  find_file Demo.files "nomerchant.csv" = Some (demo_csv "nomerchant.csv") /\
  parsed Demo.files Demo.num Demo.date "nomerchant.csv" = Ok (demo_parsed "nomerchant.csv") /\
  ~ In "merchant" (csv_header (demo_csv "nomerchant.csv")) /\
  demo_run "nomerchant.csv" = "Error: 'merchant'" /\
  find_file Demo.files "blank.csv" = Some (demo_csv "blank.csv") /\
  csv_header (demo_csv "blank.csv") = [] /\
  demo_run "blank.csv" = "Error: No columns to parse from file".
Proof.
  assert (H1 : find_file Demo.files "nodate.csv" = Some (demo_csv "nodate.csv"))
    by (vm_compute; reflexivity).
  assert (H2 : read_csv Demo.files Demo.num "nodate.csv" = Ok (demo_read "nodate.csv"))
    by (vm_compute; reflexivity).
  assert (H3 : ~ In "date" (csv_header (demo_csv "nodate.csv")))
    by (vm_compute; intros [H|[H|[]]]; discriminate).
  assert (H4 : find_file Demo.files "nomerchant.csv" = Some (demo_csv "nomerchant.csv"))
    by (vm_compute; reflexivity).
  assert (H5 : parsed Demo.files Demo.num Demo.date "nomerchant.csv"
               = Ok (demo_parsed "nomerchant.csv")) by (vm_compute; reflexivity).
  assert (H6 : ~ In "merchant" (csv_header (demo_csv "nomerchant.csv")))
    by (vm_compute; intros [H|[H|[]]]; discriminate).
  assert (H7 : find_file Demo.files "blank.csv" = Some (demo_csv "blank.csv"))
    by (vm_compute; reflexivity).
  assert (H8 : csv_header (demo_csv "blank.csv") = []) by (vm_compute; reflexivity).
  destruct (missing_column_messages Demo.files Demo.num Demo.date Demo.numbers _ _ H1)
    as [Ha _].
  destruct (missing_column_messages Demo.files Demo.num Demo.date Demo.numbers _ _ H4)
    as [_ [Hb _]].
  destruct (missing_column_messages Demo.files Demo.num Demo.date Demo.numbers _ _ H7)
    as [_ [_ Hc]].
  repeat (split; [assumption|]); split; [exact (Ha (ex_intro _ _ H2) H3)|].
  repeat (split; [assumption|]); split; [exact (Hb _ H5 H6)|].
  repeat (split; [assumption|]); exact (Hc H8).
Defined.

(** A path under the home directory, with a quote in its name. *)
Lemma missing_file_message_witness :
  find_file Demo.files "~/it's.csv" = None /\
  expand_user Demo.files "~/it's.csv" = "/home/user/it's.csv" /\
  demo_run "~/it's.csv"
    = ("Error: [Errno 2] No such file or directory: " ++ dq ++ "/home/user/it's.csv" ++ dq)%string.
Proof.
  assert (H : find_file Demo.files "~/it's.csv" = None) by (vm_compute; reflexivity).
  split; [exact H|split; [vm_compute; reflexivity|]].
  unfold demo_run; rewrite (missing_file_message Demo.files Demo.num Demo.date Demo.numbers _ H).
  vm_compute; reflexivity.
Defined.

(** With a file on disk, an upload and a key from the secrets: the run
    without the button keeps the upload; the run with it deletes it, and
    the crew's lock file stays. *)
Lemma temp_file_after_run_witness :
  secrets_file (demo_page (Some "key") "" (Some "a,b") false) = true /\
  upload (demo_page (Some "key") "" (Some "a,b") false) = Some "a,b" /\
  fst (key_of (demo_page (Some "key") "" (Some "a,b") false)) <> ""%string /\
  pressed (demo_page (Some "key") "" (Some "a,b") false) = false /\
  snd (page_run demo_fresh demo_build demo_kickoff
         (demo_page (Some "key") "" (Some "a,b") false) [("notes.txt", "hi")])
    = [(demo_fresh [("notes.txt", "hi")], "a,b"); ("notes.txt", "hi")] /\
  secrets_file (demo_page (Some "key") "" (Some "a,b") true) = true /\
  upload (demo_page (Some "key") "" (Some "a,b") true) = Some "a,b" /\
  fst (key_of (demo_page (Some "key") "" (Some "a,b") true)) <> ""%string /\
  pressed (demo_page (Some "key") "" (Some "a,b") true) = true /\
  exists_file (demo_fresh [("notes.txt", "hi")])
    (snd (page_run demo_fresh demo_build demo_kickoff
            (demo_page (Some "key") "" (Some "a,b") true) [("notes.txt", "hi")])) = false /\
  snd (page_run demo_fresh demo_build demo_kickoff
         (demo_page (Some "key") "" (Some "a,b") true) [("notes.txt", "hi")])
    = [("crew.lock", ""); ("notes.txt", "hi")].
Proof.
  assert (Hs1 : secrets_file (demo_page (Some "key") "" (Some "a,b") false) = true)
    by reflexivity.
  assert (Hu1 : upload (demo_page (Some "key") "" (Some "a,b") false) = Some "a,b")
    by reflexivity.
  assert (Hk1 : fst (key_of (demo_page (Some "key") "" (Some "a,b") false)) <> ""%string)
    by (vm_compute; discriminate).
  assert (Hp1 : pressed (demo_page (Some "key") "" (Some "a,b") false) = false) by reflexivity.
  assert (Hs2 : secrets_file (demo_page (Some "key") "" (Some "a,b") true) = true)
    by reflexivity.
  assert (Hu2 : upload (demo_page (Some "key") "" (Some "a,b") true) = Some "a,b")
    by reflexivity.
  assert (Hk2 : fst (key_of (demo_page (Some "key") "" (Some "a,b") true)) <> ""%string)
    by (vm_compute; discriminate).
  assert (Hp2 : pressed (demo_page (Some "key") "" (Some "a,b") true) = true) by reflexivity.
  destruct (temp_file_after_run demo_fresh demo_build demo_kickoff _ [("notes.txt", "hi")] _
              Hs1 Hu1 Hk1) as [_ E1].
  destruct (temp_file_after_run demo_fresh demo_build demo_kickoff _ [("notes.txt", "hi")] _
              Hs2 Hu2 Hk2) as [E2 _].
  refine (conj Hs1 (conj Hu1 (conj Hk1 (conj Hp1 (conj (E1 Hp1)
            (conj Hs2 (conj Hu2 (conj Hk2 (conj Hp2 (conj (E2 Hp2) _)))))))))).
  vm_compute; reflexivity.
Defined.

(** The four runs of [demo_runs] from an empty disk: the two uploads that
    are kept and the crew's lock file. *)
Lemma temp_files_accumulate_witness :
  (forall st', exists_file (demo_fresh st') st' = false) /\
  (forall k t s, exists new, snd (demo_build k t s) = new ++ s) /\
  (forall k ts s, exists new, snd (demo_kickoff k ts s) = new ++ s) /\
  length (snd (page_runs demo_fresh demo_build demo_kickoff demo_runs [])) = 3 /\
  (exists new, snd (page_runs demo_fresh demo_build demo_kickoff demo_runs []) = new ++ []) /\
  length (@nil (string * string)) +
  length (filter (fun i => secrets_file i &&
                           match upload i with
                           | Some _ => negb (String.eqb (fst (key_of i)) "") && negb (pressed i)
                           | None => false
                           end) demo_runs)
    <= length (snd (page_runs demo_fresh demo_build demo_kickoff demo_runs [])).
Proof.
  split; [exact demo_fresh_new|split; [exact demo_build_adds|split; [exact demo_kickoff_adds|]]].
  split; [vm_compute; reflexivity|].
  exact (temp_files_accumulate demo_fresh demo_build demo_kickoff _ _
           demo_fresh_new demo_build_adds demo_kickoff_adds).
Defined.

Lemma no_key_no_work_witness :
  secrets_file (demo_page None "" (Some "a,b") true) = true /\
  (secret_key (demo_page None "" (Some "a,b") true) = None \/
   secret_key (demo_page None "" (Some "a,b") true) = Some ""%string) /\
  typed_key (demo_page None "" (Some "a,b") true) = ""%string /\
  snd (page_run demo_fresh demo_build demo_kickoff (demo_page None "" (Some "a,b") true) [])
    = [] /\
  In NoKeyWarning
    (fst (page_run demo_fresh demo_build demo_kickoff (demo_page None "" (Some "a,b") true) [])) /\
  In TipInfo
    (fst (page_run demo_fresh demo_build demo_kickoff (demo_page None "" (Some "a,b") true) [])) /\
  ~ In StatusBox
    (fst (page_run demo_fresh demo_build demo_kickoff (demo_page None "" (Some "a,b") true) [])).
Proof.
  assert (H0 : secrets_file (demo_page None "" (Some "a,b") true) = true) by reflexivity.
  assert (H1 : secret_key (demo_page None "" (Some "a,b") true) = None \/
               secret_key (demo_page None "" (Some "a,b") true) = Some ""%string)
    by (left; reflexivity).
  assert (H2 : typed_key (demo_page None "" (Some "a,b") true) = ""%string) by reflexivity.
  split; [exact H0|split; [exact H1|split; [exact H2|]]].
  exact (no_key_no_work demo_fresh demo_build demo_kickoff _ _ H0 H1 H2).
Defined.

Lemma secret_key_used_witness :
  secret_key (demo_page (Some "key") "typed" (Some "a,b") true) = Some "key"%string /\
  "key"%string <> ""%string /\
  fst (key_of (demo_page (Some "key") "typed" (Some "a,b") true)) = "key"%string /\
  ~ In KeyInput (fst (page_run demo_fresh demo_build demo_kickoff
                       (demo_page (Some "key") "typed" (Some "a,b") true) [])) /\
  ~ In NoKeyWarning (fst (page_run demo_fresh demo_build demo_kickoff
                           (demo_page (Some "key") "typed" (Some "a,b") true) [])).
Proof.
  assert (H1 : secret_key (demo_page (Some "key") "typed" (Some "a,b") true) = Some "key"%string)
    by reflexivity.
  assert (H2 : "key"%string <> ""%string) by discriminate.
  split; [exact H1|split; [exact H2|]].
  exact (secret_key_used demo_fresh demo_build demo_kickoff _ _ _ H1 H2).
Defined.

(** The same widgets without a secrets file: the run stops at the secret. *)
Lemma no_secrets_file_crash_witness :
  secrets_file (demo_page_no_secrets (Some "key") "" (Some "a,b") true) = false /\
  fst (page_run demo_fresh demo_build demo_kickoff
         (demo_page_no_secrets (Some "key") "" (Some "a,b") true) [("notes.txt", "hi")])
    = [PageConfig; PageTitle; PageIntro; SidebarHeader; SecretsError] /\
  In SecretsError (fst (page_run demo_fresh demo_build demo_kickoff
         (demo_page_no_secrets (Some "key") "" (Some "a,b") true) [("notes.txt", "hi")])) /\
  ~ In KeyInput (fst (page_run demo_fresh demo_build demo_kickoff
         (demo_page_no_secrets (Some "key") "" (Some "a,b") true) [("notes.txt", "hi")])) /\
  ~ In NoKeyWarning (fst (page_run demo_fresh demo_build demo_kickoff
         (demo_page_no_secrets (Some "key") "" (Some "a,b") true) [("notes.txt", "hi")])) /\
  ~ In Uploader (fst (page_run demo_fresh demo_build demo_kickoff
         (demo_page_no_secrets (Some "key") "" (Some "a,b") true) [("notes.txt", "hi")])) /\
  snd (page_run demo_fresh demo_build demo_kickoff
         (demo_page_no_secrets (Some "key") "" (Some "a,b") true) [("notes.txt", "hi")])
    = [("notes.txt", "hi")].
Proof.
  assert (H : secrets_file (demo_page_no_secrets (Some "key") "" (Some "a,b") true) = false)
    by reflexivity.
  split; [exact H|split; [reflexivity|]].
  exact (no_secrets_file_crash demo_fresh demo_build demo_kickoff _ _ H).
Defined.
